(** * Terragrunt scaffold pipeline: source resolution, variable
      classification, scratch-directory cleanup and exit-code recovery.

    A shallow embedding of [cli/commands/scaffold] (the scaffold pipeline)
    and of [util.GetExitCode], together with the parts of Go's [net/url],
    [strings] and [errors] packages that those functions call. *)

From Stdlib Require Import String Ascii List Lia.
From stdpp Require Import gmap strings list fin_maps sorting pretty.

Set Warnings "-register-all".


(* ===================================================================== *)
(** * Part I: definitions                                                 *)
(* ===================================================================== *)

(** ** Go's [strings] package, for the one-byte separators the callers use *)

Module GoStrings.

(** [strings.Cut(s, sep)]: the text before and after the first [sep],
    and whether [sep] occurs. *)
Fixpoint Cut (s : string) (sep : ascii) : string * string * bool :=
  match s with
  | EmptyString => (EmptyString, EmptyString, false)
  | String c r =>
      if Ascii.eqb c sep then (EmptyString, r, true)
      else let '(before, after, found) := Cut r sep in
           (String c before, after, found)
  end.

(** [strings.Contains(s, sep)]. *)
Fixpoint Contains (s : string) (sep : ascii) : bool :=
  match s with
  | EmptyString => false
  | String c r => Ascii.eqb c sep || Contains r sep
  end.

(** The successive [before] parts of [Cut(s, sep)] applied until the
    text is exhausted: the pieces a loop
    [for s != "" { piece, s, _ = strings.Cut(s, sep) ... }] visits,
    followed by an empty piece when [s] ends in [sep] or is empty. *)
Fixpoint Pieces (s : string) (sep : ascii) : list string :=
  match s with
  | EmptyString => [EmptyString]
  | String c r =>
      if Ascii.eqb c sep then EmptyString :: Pieces r sep
      else match Pieces r sep with
           | p :: ps => String c p :: ps
           | [] => [String c EmptyString]
           end
  end.

(** [strings.TrimPrefix(s, prefix)]. *)
Definition TrimPrefix (s prefix : string) : string :=
  if String.prefix prefix s
  then String.substring (String.length prefix)
                        (String.length s - String.length prefix) s
  else s.

(** [strings.CutPrefix(s, prefix)] without the flag: the rest of [s] when
    it starts with [prefix]. *)
Fixpoint stripPrefix (prefix s : string) : option string :=
  match prefix with
  | EmptyString => Some s
  | String a prefix' =>
      match s with
      | String b s' => if Ascii.eqb a b then stripPrefix prefix' s' else None
      | EmptyString => None
      end
  end.

(** The longest prefix of [s] whose bytes satisfy [keep], and the rest. *)
Fixpoint span (keep : ascii → bool) (s : string) : string * string :=
  match s with
  | EmptyString => (EmptyString, EmptyString)
  | String a s' =>
      if keep a
      then let '(taken, rest) := span keep s' in (String a taken, rest)
      else (EmptyString, s)
  end.

End GoStrings.

(** ** Go's [net/url]: query escaping, [Values] and the [URL] struct *)

Module url.

Definition isAlnum (c : ascii) : bool :=
  let n := nat_of_ascii c in
  ((48 <=? n) && (n <=? 57)) || ((65 <=? n) && (n <=? 90))
  || ((97 <=? n) && (n <=? 122)).

Definition ishex (c : ascii) : bool :=
  let n := nat_of_ascii c in
  ((48 <=? n) && (n <=? 57)) || ((97 <=? n) && (n <=? 102))
  || ((65 <=? n) && (n <=? 70)).

Definition unhex (c : ascii) : nat :=
  let n := nat_of_ascii c in
  if (48 <=? n) && (n <=? 57) then n - 48
  else if (97 <=? n) && (n <=? 102) then n - 97 + 10
  else if (65 <=? n) && (n <=? 70) then n - 65 + 10
  else 0.

Definition upperhex : string := "0123456789ABCDEF".

Definition hexDigit (n : nat) : ascii :=
  match String.get n upperhex with Some c => c | None => "0"%char end.

(** [shouldEscape(c, encodeQueryComponent)]: everything but the
    unreserved characters is escaped. *)
Definition shouldEscape (c : ascii) : bool :=
  if isAlnum c then false
  else match c with
       | "-" | "_" | "." | "~" => false
       | _ => true
       end%char.

(** What [escape(s, encodeQueryComponent)] writes for one byte. *)
Definition escapeByte (c : ascii) : string :=
  if Ascii.eqb c " " then "+"
  else if shouldEscape c then
    String "%" (String (hexDigit (nat_of_ascii c / 16))
               (String (hexDigit (nat_of_ascii c mod 16)) EmptyString))
  else String c EmptyString.

Fixpoint QueryEscape (s : string) : string :=
  match s with
  | EmptyString => EmptyString
  | String c r => escapeByte c +:+ QueryEscape r
  end.

(** [QueryUnescape]: [None] stands for the [EscapeError]. *)
Fixpoint QueryUnescape (s : string) : option string :=
  match s with
  | EmptyString => Some EmptyString
  | String c r =>
      if Ascii.eqb c "%" then
        match r with
        | String a (String b r') =>
            if ishex a && ishex b
            then String (ascii_of_nat (unhex a * 16 + unhex b))
                   <$> QueryUnescape r'
            else None
        | _ => None
        end
      else if Ascii.eqb c "+" then String " "%char <$> QueryUnescape r
      else String c <$> QueryUnescape r
  end.

(** [type Values map[string][]string]. *)
Abbreviation Values := (gmap string (list string)).

(** [func (v Values) Get(key string) string]. *)
Definition Get (v : Values) (key : string) : string :=
  match v !! key with
  | Some (x :: _) => x
  | _ => EmptyString
  end.

(** [func (v Values) Set(key, value string)]: [v[key] = []string{value}]. *)
Definition Set_ (v : Values) (key value : string) : Values :=
  <[key := [value]]> v.

(** [func (v Values) Add(key, value string)]:
    [v[key] = append(v[key], value)]. *)
Definition Add (v : Values) (key value : string) : Values :=
  <[key := default [] (v !! key) ++ [value]]> v.

(** One iteration of the loop of [parseQuery] on the piece [key]: pieces
    with a semicolon, empty pieces and pieces that do not unescape are
    skipped (the error they raise is dropped by [URL.Query]). *)
Definition parsePiece (m : Values) (piece : string) : Values :=
  if GoStrings.Contains piece ";" then m
  else if String.eqb piece "" then m
  else
    let '(key, value, _) := GoStrings.Cut piece "=" in
    match QueryUnescape key with
    | None => m
    | Some key =>
        match QueryUnescape value with
        | None => m
        | Some value => Add m key value
        end
    end.

(** [ParseQuery], errors dropped as [URL.Query] does. *)
Definition ParseQuery (query : string) : Values :=
  fold_left parsePiece (GoStrings.Pieces query "&") ∅.

(** [slices.Sorted(maps.Keys(v))]: the keys in byte-wise order. *)
Definition sortedKeys (v : Values) : list string :=
  merge_sort String.le (map_to_list v).*1.

(** The body of the inner loop of [Encode]. *)
Definition writePair (keyEscaped : string) (buf value : string) : string :=
  (if String.eqb buf "" then buf else buf +:+ "&")
    +:+ keyEscaped +:+ "=" +:+ QueryEscape value.

(** [func (v Values) Encode() string]. *)
Definition Encode (v : Values) : string :=
  fold_left
    (fun buf k =>
       fold_left (writePair (QueryEscape k)) (default [] (v !! k)) buf)
    (sortedKeys v) EmptyString.

(** [type Userinfo struct]. *)
Record Userinfo := mkUserinfo {
  username : string;
  password : option string
}.

(** [type URL struct], with the fields the pipeline can observe. *)
Record URL := mkURL {
  Scheme : string;
  Opaque : string;
  User : option Userinfo;
  Host : string;
  Path : string;
  RawPath : string;
  ForceQuery : bool;
  RawQuery : string;
  Fragment : string
}.

(** [func (u *URL) Query() Values]. *)
Definition Query (u : URL) : Values := ParseQuery (RawQuery u).

(** The assignment [u.RawQuery = q]. *)
Definition setRawQuery (u : URL) (q : string) : URL :=
  {| Scheme := Scheme u; Opaque := Opaque u; User := User u;
     Host := Host u; Path := Path u; RawPath := RawPath u;
     ForceQuery := ForceQuery u; RawQuery := q; Fragment := Fragment u |}.

End url.

(** ** Go error values *)

Module goerrors.

(** The dynamic types an [error] can have in these packages, by the
    methods that [GetExitCode] looks for. A nil error is [None] of
    [option error]. *)
Inductive error : Type :=
| errorString (msg : string)
    (** no [Unwrap], no [ExitStatus]: [errors.New(msg)], the scaffold
        errors [NoModuleURLPassed{}] and [failedToParseURLError{}] *)
| Wrapped (inner : error)
    (** a type with [Unwrap() error], such as the stack-trace wrapper of
        [internal/errors] or a [%w] error *)
| ExitError (status : Z)
    (** [*exec.ExitError] whose wait status has exit status [status] *)
| ProcessExecutionError (Err : option error)
    (** [util.ProcessExecutionError]: it has [ExitStatus] and no [Unwrap] *)
| MultiError (Errors : list error)
    (** [*multierror.Error] *)
| chain (errs : list error).
    (** [multierror.chain], what [Unwrap] of a multierror with two or
        more members gives *)

End goerrors.

Export goerrors.

(** ** Package [util]: [GetExitCode] *)

Module util.

(** [errors.Unwrap(err)]: the result of the [Unwrap() error] method of
    [err], nil when it has none. The package [internal/errors] that
    [GetExitCode] imports is not among the sources at hand; its [Unwrap]
    and [As] are taken to be those of Go's [errors] package, which it
    wraps. A multierror unwraps to its only member or to the [chain] of
    its members, a chain to the chain of the rest. *)
Definition errors_Unwrap (err : option error) : option error :=
  match err with
  | Some (Wrapped inner) => Some inner
  | Some (MultiError []) => None
  | Some (MultiError [member]) => Some member
  | Some (MultiError errs) => Some (chain errs)
  | Some (chain (_ :: (_ :: _) as rest)) => Some (chain rest)
  | _ => None
  end.

(** [errors.As(err, &exiterr)] for [*exec.ExitError]: the first exit error
    in the tree of [err], by its exit status. It follows [Unwrap], and
    [chain.As] for the members of a multierror, depth first. *)
Fixpoint errors_As_ExitError (err : error) : option Z :=
  match err with
  | ExitError status => Some status
  | Wrapped inner => errors_As_ExitError inner
  | MultiError errs | chain errs =>
      (fix first (errs : list error) : option Z :=
         match errs with
         | [] => None
         | member :: errs =>
             match errors_As_ExitError member with
             | Some status => Some status
             | None => first errs
             end
         end) errs
  | errorString _ | ProcessExecutionError _ => None
  end.

(** [errors.As(err, &multiErr)] for [*multierror.Error]: the members of
    the first multierror in the tree of [err]. *)
Fixpoint errors_As_MultiError (err : error) : option (list error) :=
  match err with
  | MultiError errs => Some errs
  | Wrapped inner => errors_As_MultiError inner
  | chain errs =>
      (fix first (errs : list error) : option (list error) :=
         match errs with
         | [] => None
         | member :: errs =>
             match errors_As_MultiError member with
             | Some found => Some found
             | None => first errs
             end
         end) errs
  | errorString _ | ExitError _ | ProcessExecutionError _ => None
  end.

(** The type assertion [.(iErrorCode)]: [ProcessExecutionError] is the
    type with an [ExitStatus() (int, error)] method; the result is its
    field [Err], which [ExitStatus] passes to [GetExitCode]. *)
Definition asErrorCode (err : option error) : option (option error) :=
  match err with
  | Some (ProcessExecutionError Err) => Some Err
  | _ => None
  end.

(** The loop over [multiErr.Errors]: the exit code of the first member
    for which [getExitCode] returns a nil error. *)
Fixpoint firstExitCode (getExitCode : option error → Z * option error)
    (errs : list error) : option Z :=
  match errs with
  | [] => None
  | err :: errs =>
      match getExitCode (Some err) with
      | (exitCode, None) => Some exitCode
      | (_, Some _) => firstExitCode getExitCode errs
      end
  end.

(** [GetExitCode], with a bound on the depth of its recursion. *)
Fixpoint GetExitCode_bounded (depth : nat) (err : option error)
  : Z * option error :=
  match depth with
  | 0 => (0%Z, err)
  | S depth =>
      match asErrorCode (errors_Unwrap err) with
      | Some exiterr_Err =>
          (* [return exiterr.ExitStatus()], that is [GetExitCode(err.Err)] *)
          GetExitCode_bounded depth exiterr_Err
      | None =>
          match err ≫= errors_As_ExitError with
          | Some status => (status, None)
          | None =>
              match err ≫= errors_As_MultiError with
              | Some Errors =>
                  match firstExitCode (GetExitCode_bounded depth) Errors with
                  | Some exitCode => (exitCode, None)
                  | None => (0%Z, err)
                  end
              | None => (0%Z, err)
              end
          end
      end
  end.

(** The number of constructors of an error value. *)
Fixpoint error_size (err : error) : nat :=
  match err with
  | errorString _ | ExitError _ => 1
  | Wrapped inner => S (error_size inner)
  | ProcessExecutionError Err =>
      S (match Err with Some inner => error_size inner | None => 0 end)
  | MultiError errs | chain errs =>
      S ((fix sum (errs : list error) : nat :=
            match errs with
            | [] => 0
            | member :: errs => error_size member + sum errs
            end) errs)
  end.

Definition size (err : option error) : nat :=
  match err with Some err => error_size err | None => 0 end.

(** [GetExitCode] returns the exit code of a command. The recursion goes
    to parts of [err], so the size of [err] bounds its depth. *)
Definition GetExitCode (err : option error) : Z * option error :=
  GetExitCode_bounded (S (size err)) err.

(** [IsCommandExecutable] returns true if a command can be executed
    without errors; [runErr] is what [cmd.Run()] returned. *)
Definition IsCommandExecutable (runErr : option error) : bool :=
  match runErr with
  | Some err =>
      match errors_As_ExitError err with
      | Some exitCode => Z.eqb exitCode 0
      | None => false
      end
  | None => true
  end.

(** [errors.As(err, target)] for a target of type [*V], where [assert]
    says whether an error value is assignable to [V]. The loop of
    [errors.As] tests the error, asks its [As] method, which only [chain]
    has and which looks into the first member, and goes on with
    [Unwrap]. *)
Fixpoint errors_As {V : Type} (assert : error → option V) (err : error)
  : option V :=
  let onChain :=
    fix onChain (errs : list error) : option V :=
      match errs with
      | [] => None
      | member :: rest =>
          match errors_As assert member with
          | Some v => Some v
          | None =>
              match rest with
              | [] => None
              | _ :: _ =>
                  match assert (chain rest) with
                  | Some v => Some v
                  | None => onChain rest
                  end
              end
          end
      end in
  match assert err with
  | Some v => Some v
  | None =>
      match err with
      | Wrapped inner => errors_As assert inner
      | MultiError [] => None
      | MultiError [member] => errors_As assert member
      | MultiError errs =>
          match assert (chain errs) with
          | Some v => Some v
          | None => onChain errs
          end
      | chain errs => onChain errs
      | errorString _ | ExitError _ | ProcessExecutionError _ => None
      end
  end.

(** The loop of [Unwrap]: [errors.As], and on failure [errors.Unwrap],
    until that gives nil. [zero] is the zero value behind [new(V)]. *)
Fixpoint Unwrap_loop {V : Type} (assert : error → option V) (zero : V)
    (rounds : nat) (err : option error) : V :=
  match rounds with
  | 0 => zero
  | S rounds =>
      match err ≫= errors_As assert with
      | Some v => v
      | None =>
          match errors_Unwrap err with
          | Some next => Unwrap_loop assert zero rounds (Some next)
          | None => zero
          end
      end
  end.

(** [Unwrap[V](err)]: the value behind the pointer it returns. A
    multierror unwraps to a chain of the same size and every other step
    to a smaller error, so twice the size of [err] bounds the rounds. *)
Definition Unwrap {V : Type} (assert : error → option V) (zero : V)
    (err : option error) : V :=
  Unwrap_loop assert zero (S (2 * size err)) err.

End util.

(** ** The scaffold pipeline: state, collaborators, and functions *)

Module scaffold.
Import url.

Definition sourceURLTypeHTTPS : string := "git-https".
Definition sourceURLTypeGit : string := "git-ssh".
Definition sourceGitSSHUser : string := "git".
Definition sourceURLTypeVar : string := "SourceUrlType".
Definition sourceGitSSHUserVar : string := "SourceGitSshUser".
Definition refVar : string := "Ref".
Definition refParam : string := "ref".

(** [config.ParsedVariable], with the fields the default template reads. *)
Record ParsedVariable := mkParsedVariable {
  Name : string;
  Description : string;
  Type_ : string;
  DefaultValue : string;
  DefaultValuePlaceholder : string
}.

(** A value of [map[string]interface{}]. *)
Inductive Value : Type :=
| VString (s : string)
| VVariables (l : list ParsedVariable)
| VOther (tag : nat).
    (** any other dynamic type, named by [tag] *)

Abbreviation Vars := (gmap string Value).

(** The arguments of a logger call. *)
Inductive LogArg : Type :=
| AString (s : string)
| AInt (n : nat)
| AError (e : error)
| AURL (u : URL).

Inductive LogEntry : Type :=
| Warnf (format : string) (args : list LogArg)
| Infof (format : string) (args : list LogArg)
| Debugf (format : string) (args : list LogArg).

(** The filesystem: the directories that exist and the files with their
    content. *)
Record FS := mkFS {
  fs_dirs : gset string;
  fs_files : gmap string string
}.

(** What a run can observe and change: the [url.URL] values behind the
    [*url.URL] pointers, the filesystem, and the logger's output. *)
Record State := mkState {
  heap : gmap nat URL;
  fs : FS;
  log : list LogEntry
}.

(** The outcome of a call: a value with a nil error, a non-nil error, or a
    run-time panic (a nil or dangling pointer dereference). *)
Inductive Res (A : Type) : Type :=
| Ok (a : A)
| Err (e : error)
| Panic.
Arguments Ok {A} a.
Arguments Err {A} e.
Arguments Panic {A}.

Definition M (A : Type) : Type := State → Res A * State.

Definition ret {A} (a : A) : M A := λ st, (Ok a, st).

Definition bind {A B} (m : M A) (k : A → M B) : M B :=
  λ st, match m st with
        | (Ok a, st') => k a st'
        | (Err e, st') => (Err e, st')
        | (Panic, st') => (Panic, st')
        end.

(** [return zero, err]. *)
Definition fail {A} (e : error) : M A := λ st, (Err e, st).

(** A run-time panic. *)
Definition panic {A} : M A := λ st, (Panic, st).

(** The result of a collaborator that leaves the state alone. *)
Definition lift {A} (r : Res A) : M A := λ st, (r, st).

Notation "x <- m ;; k" := (bind m (λ x, k))
  (at level 100, m at next level, right associativity).
Notation "m ;; k" := (bind m (λ _, k))
  (at level 100, right associativity).

(** [*p]. *)
Definition load (p : nat) : M URL :=
  λ st, match heap st !! p with
        | Some u => (Ok u, st)
        | None => (Panic, st)
        end.

(** [p.RawQuery = q]. *)
Definition storeRawQuery (p : nat) (q : string) : M unit :=
  λ st, match heap st !! p with
        | Some u =>
            (Ok (), {| heap := <[p := setRawQuery u q]> (heap st);
                       fs := fs st; log := log st |})
        | None => (Panic, st)
        end.

(** A pointer to a fresh [url.URL] holding [u]. *)
Definition alloc (u : URL) : M nat :=
  λ st, let p := fresh (dom (heap st)) in
        (Ok p, {| heap := <[p := u]> (heap st); fs := fs st; log := log st |}).

(** [opts.Logger.Warnf(...)] and its siblings. *)
Definition logger (e : LogEntry) : M unit :=
  λ st, (Ok (), {| heap := heap st; fs := fs st; log := log st ++ [e] |}).

(** [*options.TerragruntOptions], with the fields the pipeline reads. *)
Record TerragruntOptions := mkOptions {
  WorkingDir : string;
  ScaffoldVars : list string;
  ScaffoldVarFiles : list string;
  NonInteractive : bool
}.

(** [boilerplate_options.BoilerplateOptions] as [Run] fills it. *)
Record BoilerplateOptions := mkBoilerplateOptions {
  OutputFolder : string;
  BVars : Vars;
  DisableShell : bool;
  DisableHooks : bool;
  BNonInteractive : bool;
  TemplateFolder : string
}.

(** The functions the pipeline calls and this development does not
    define: other packages of the repository, go-getter, boilerplate, the
    operating system, and the parts of [fmt] and [net/url] whose result is
    only passed on. *)
Record Collaborators := mkCollaborators {
  (** [internal/errors.New] *)
  errors_New : error → error;
  (** what the verb [%s] prints for a value that is not a string *)
  fmt_other : Value → string;
  (** [func (u *URL) String() string] *)
  URL_String : URL → string;
  (** [terraform.ToSourceURL(source, workingDir)] *)
  terraform_ToSourceURL : string → string → Res URL;
  (** [terraform.SplitSourceURL(sourceURL, logger)] *)
  terraform_SplitSourceURL : URL → Res (URL * string);
  (** [shell.GitLastReleaseTag(ctx, opts, gitRepo)] *)
  shell_GitLastReleaseTag : URL → Res string;
  (** [util.IsDirectoryEmpty(dir)] *)
  util_IsDirectoryEmpty : string → FS → Res bool;
  (** [util.JoinPath] and [util.DefaultBoilerplateDir] *)
  util_JoinPath : string → string → string;
  util_DefaultBoilerplateDir : string;
  (** the name [os.MkdirTemp("", pattern)] picks, or its error *)
  os_MkdirTemp_name : string → FS → Res string;
  (** the error of [os.RemoveAll(path)], if it fails *)
  os_RemoveAll_error : string → FS → option error;
  (** the error of [os.WriteFile(name, ...)], if it fails *)
  os_WriteFile_error : string → FS → option error;
  (** [variables.ParseVars(vars, varFiles)] *)
  variables_ParseVars : list string → list string → FS → Res Vars;
  (** [getter.GetAny(ctx, dst, src)] *)
  getter_GetAny : string → string → FS → option error * FS;
  (** [config.ParseVariables(opts, directoryPath)] *)
  config_ParseVariables : TerragruntOptions → string → FS
                          → Res (list ParsedVariable);
  (** [templates.ProcessTemplate(opts, opts, dep)] *)
  templates_ProcessTemplate : BoilerplateOptions → FS → option error * FS;
  (** [hclfmt.Run(opts)] *)
  hclfmt_Run : TerragruntOptions → FS → option error * FS
}.

Section Pipeline.
Context (c : Collaborators).

(** [fmt.Sprintf("%s", value)]. *)
Definition Sprintf_s (value : Value) : string :=
  match value with
  | VString s => s
  | _ => fmt_other c value
  end.

(** [if err != nil { return zero, errors.New(err) }]. *)
Definition wrapErr {A} (m : M A) : M A :=
  λ st, match m st with
        | (Err e, st') => (Err (errors_New c e), st')
        | r => r
        end.

(** [terraform.ToSourceURL], returning a pointer to a new [url.URL]. *)
Definition ToSourceURL (source workingDir : string) : M nat :=
  u <- lift (terraform_ToSourceURL c source workingDir) ;; alloc u.

(** [addRefToModuleURL] adds ref to module url if is passed through
    variables or find it from git tags. *)
Definition addRefToModuleURL (opts : TerragruntOptions)
    (parsedModuleURL : nat) (vars : Vars) : M nat :=
  let moduleURL := parsedModuleURL in
  u <- load moduleURL ;;
  let params := Query u in
  params <- match vars !! refVar with
            | Some refReplacement =>
                let params := Set_ params refParam (Sprintf_s refReplacement) in
                storeRawQuery moduleURL (Encode params) ;;
                ret params
            | None => ret params
            end ;;
  let ref := Get params refParam in
  (if String.eqb ref "" then
     u <- load moduleURL ;;
     split <- wrapErr (lift (terraform_SplitSourceURL c u)) ;;
     let rootSourceURL := split.1 in
     match shell_GitLastReleaseTag c rootSourceURL with
     | Ok tag =>
         if String.eqb tag "" then
           logger (Warnf "Failed to find last release tag for %s"
                         [AURL rootSourceURL])
         else
           let params := Add params refParam tag in
           storeRawQuery moduleURL (Encode params)
     | Err _ =>
         logger (Warnf "Failed to find last release tag for %s"
                       [AURL rootSourceURL])
     | Panic => panic
     end
   else ret ()) ;;
  ret moduleURL.

(** [type parsedURL struct]. *)
Record parsedURL := mkParsedURL {
  scheme : string;
  host : string;
  path : string
}.

Definition failedToParseURLError : error := errorString "Failed to parse Url.".
Definition NoModuleURLPassed : error := errorString "No module URL passed.".

(** [moduleURLPattern] from the two colons on: a non-empty run of bytes
    other than a colon (the scheme), [://], a non-empty run of bytes other
    than a slash (the host), and a slash with the rest of the line (the
    path). Each run is followed by a byte it cannot contain, so the only
    candidate is the longest run; the dot of the pattern stops at a line
    feed. *)
Definition matchAfterVCS (s : string) : option parsedURL :=
  match GoStrings.stripPrefix "::" s with
  | None => None
  | Some s =>
      let '(sch, rest) := GoStrings.span (λ a, negb (Ascii.eqb a ":")) s in
      if String.eqb sch "" then None
      else match GoStrings.stripPrefix "://" rest with
           | None => None
           | Some rest =>
               let '(h, rest) :=
                 GoStrings.span (λ a, negb (Ascii.eqb a "/")) rest in
               if String.eqb h "" then None
               else match rest with
                    | String "/" _ =>
                        Some {| scheme := sch; host := h;
                                path := (GoStrings.span
                                           (λ a, negb (Ascii.eqb a "010")) rest).1 |}
                    | _ => None
                    end
           end
  end.

(** A match of the pattern that starts at the first byte of [s]: one of
    [git], [hg], [s3], [gcs], and then [matchAfterVCS]. *)
Definition matchHere (s : string) : option parsedURL :=
  let try (vcs : string) : option parsedURL :=
    match GoStrings.stripPrefix vcs s with
    | Some rest => matchAfterVCS rest
    | None => None
    end in
  match try "git" with
  | Some m => Some m
  | None =>
      match try "hg" with
      | Some m => Some m
      | None =>
          match try "s3" with
          | Some m => Some m
          | None => try "gcs"
          end
      end
  end.

(** [moduleURLRegex.FindStringSubmatch]: the leftmost match. *)
Fixpoint FindStringSubmatch (s : string) : option parsedURL :=
  match matchHere s with
  | Some m => Some m
  | None =>
      match s with
      | EmptyString => None
      | String _ s' => FindStringSubmatch s'
      end
  end.

(** [parseURL] parses module url to scheme, host and path. *)
Definition parseURL (opts : TerragruntOptions) (moduleURL : string)
  : M parsedURL :=
  match FindStringSubmatch moduleURL with
  | None =>
      logger (Warnf "Failed to parse url %s" [AString moduleURL]) ;;
      fail failedToParseURLError
  | Some matches => ret matches
  end.

(** Running [m] and looking at its error instead of returning it. *)
Definition attempt {A} (m : M A) : M (Res A) :=
  λ st, match m st with
        | (Panic, st') => (Panic, st')
        | (r, st') => (Ok r, st')
        end.

(** [rewriteModuleURL] rewrites module url to git ssh if required. *)
Definition rewriteModuleURL (opts : TerragruntOptions) (vars : Vars)
    (moduleURL : string) : M nat :=
  let updatedModuleURL := moduleURL in
  let sourceURLType :=
    match vars !! sourceURLTypeVar with
    | Some value => Sprintf_s value
    | None => sourceURLTypeHTTPS
    end in
  parsed <- attempt (parseURL opts moduleURL) ;;
  match parsed with
  | Ok parsedValue =>
      let updatedModuleURL :=
        if String.eqb (scheme parsedValue) "https"
           && String.eqb sourceURLType sourceURLTypeGit
        then
          let gitUser :=
            match vars !! sourceGitSSHUserVar with
            | Some value => Sprintf_s value
            | None => sourceGitSSHUser
            end in
          let path := GoStrings.TrimPrefix (path parsedValue) "/" in
          gitUser +:+ "@" +:+ host parsedValue +:+ ":" +:+ path
        else updatedModuleURL in
      wrapErr (ToSourceURL updatedModuleURL (WorkingDir opts))
  | _ =>
      logger (Warnf "Failed to parse module url %s" [AString moduleURL]) ;;
      wrapErr (ToSourceURL updatedModuleURL (WorkingDir opts))
  end.

(** [rewriteTemplateURL] rewrites template url with reference to tag. *)
Definition rewriteTemplateURL (opts : TerragruntOptions)
    (parsedTemplateURL : nat) : M nat :=
  let updatedTemplateURL := parsedTemplateURL in
  u <- load updatedTemplateURL ;;
  let templateParams := Query u in
  let ref := Get templateParams refParam in
  (if String.eqb ref "" then
     split <- wrapErr (lift (terraform_SplitSourceURL c u)) ;;
     let rootSourceURL := split.1 in
     match shell_GitLastReleaseTag c rootSourceURL with
     | Ok tag =>
         if String.eqb tag "" then
           logger (Warnf "Failed to find last release tag for URL %s, so will not add a ref param to the URL"
                         [AURL rootSourceURL])
         else
           let templateParams := Add templateParams refParam tag in
           storeRawQuery updatedTemplateURL (Encode templateParams)
     | Err _ =>
         logger (Warnf "Failed to find last release tag for URL %s, so will not add a ref param to the URL"
                       [AURL rootSourceURL])
     | Panic => panic
     end
   else ret ()) ;;
  ret updatedTemplateURL.

(** [parsedURL.String()] through the pointer. *)
Definition String_ (p : nat) : M string :=
  u <- load p ;; ret (URL_String c u).

(** [parseModuleURL] - parse module url and rewrite it if required. *)
Definition parseModuleURL (opts : TerragruntOptions) (vars : Vars)
    (moduleURL : string) : M string :=
  parsedModuleURL <- wrapErr (ToSourceURL moduleURL (WorkingDir opts)) ;;
  moduleURL <- String_ parsedModuleURL ;;
  parsedModuleURL <- wrapErr (rewriteModuleURL opts vars moduleURL) ;;
  parsedModuleURL <- wrapErr (addRefToModuleURL opts parsedModuleURL vars) ;;
  String_ parsedModuleURL.

(** The loop of [parseVariables]: separate variables that require value
    and with default value. *)
Definition classify (inputs : list ParsedVariable)
  : list ParsedVariable * list ParsedVariable :=
  fold_left
    (λ '(requiredVariables, optionalVariables) value,
       if String.eqb (DefaultValue value) ""
       then (requiredVariables ++ [value], optionalVariables)
       else (requiredVariables, optionalVariables ++ [value]))
    inputs ([], []).

(** [parseVariables] - parse variables from tf files. *)
Definition parseVariables (opts : TerragruntOptions) (moduleDir : string)
  : M (list ParsedVariable * list ParsedVariable) :=
  inputs <- wrapErr (λ st, (config_ParseVariables c opts moduleDir (fs st), st)) ;;
  ret (classify inputs).

(** A collaborator that changes the filesystem and may fail. *)
Definition onFS (f : FS → option error * FS) : M unit :=
  λ st, let '(e, fs') := f (fs st) in
        (match e with Some e => Err e | None => Ok () end,
         {| heap := heap st; fs := fs'; log := log st |}).

(** [os.MkdirTemp("", pattern)]: the new directory exists afterwards. *)
Definition os_MkdirTemp (pattern : string) : M string :=
  λ st, match os_MkdirTemp_name c pattern (fs st) with
        | Ok name =>
            (Ok name,
             {| heap := heap st;
                fs := {| fs_dirs := {[name]} ∪ fs_dirs (fs st);
                         fs_files := fs_files (fs st) |};
                log := log st |})
        | Err e => (Err e, st)
        | Panic => (Panic, st)
        end.

(** [name] is [path] or lies below it. *)
Definition below (path name : string) : Prop :=
  name = path ∨ String.prefix (path +:+ "/") name = true.

#[global] Instance below_dec path name : Decision (below path name).
Proof. unfold below. apply _. Defined.

(** [os.RemoveAll(path)]: [path] and everything below it is gone. *)
Definition os_RemoveAll (path : string) : M unit :=
  λ st, match os_RemoveAll_error c path (fs st) with
        | Some e => (Err e, st)
        | None =>
            (Ok (),
             {| heap := heap st;
                fs := {| fs_dirs := filter (λ d, ¬ below path d) (fs_dirs (fs st));
                         fs_files := filter (λ kv, ¬ below path kv.1)
                                            (fs_files (fs st)) |};
                log := log st |})
        end.

(** [os.WriteFile(name, data, perm)]. *)
Definition os_WriteFile (name data : string) : M unit :=
  λ st, match os_WriteFile_error c name (fs st) with
        | Some e => (Err e, st)
        | None =>
            (Ok (),
             {| heap := heap st;
                fs := {| fs_dirs := fs_dirs (fs st);
                         fs_files := <[name := data]> (fs_files (fs st)) |};
                log := log st |})
        end.

(** [files.IsExistingDir(path)]. *)
Definition files_IsExistingDir (path : string) : M bool :=
  λ st, (Ok (bool_decide (path ∈ fs_dirs (fs st))), st).

(** A line feed and a double quote. *)
Definition nl : string := String "010" EmptyString.
Definition dq : string := String "034" EmptyString.

(** [DefaultBoilerplateConfig], line by line. *)
Definition DefaultBoilerplateConfig : string :=
  String.concat nl [
    "";
    "variables:";
    "  - name: EnableRootInclude";
    "    description: Should include root module";
    "    type: bool";
    "    default: true";
    ""
  ].

(** [DefaultTerragruntTemplate], line by line. *)
Definition DefaultTerragruntTemplate : string :=
  String.concat nl [
    "";
    "# This is a Terragrunt module generated by boilerplate.";
    "terraform {";
    "  source = " +:+ dq +:+ "{{ .sourceUrl }}" +:+ dq;
    "}";
    "{{ if .EnableRootInclude }}";
    "include " +:+ dq +:+ "root" +:+ dq +:+ " {";
    "  path = find_in_parent_folders()";
    "}";
    "{{ end }}";
    "inputs = {";
    "  # --------------------------------------------------------------------------------------------------------------------";
    "  # Required input variables";
    "  # --------------------------------------------------------------------------------------------------------------------";
    "  {{ range .requiredVariables }}";
    "  {{- if eq 1 (regexSplit " +:+ dq +:+ "\n" +:+ dq +:+ " .Description -1 | len ) }}";
    "  # Description: {{ .Description }}";
    "  {{- else }}";
    "  # Description:";
    "    {{- range $line := regexSplit " +:+ dq +:+ "\n" +:+ dq +:+ " .Description -1 }}";
    "    # {{ $line | indent 2 }}";
    "    {{- end }}";
    "  {{- end }}";
    "  # Type: {{ .Type }}";
    "  {{ .Name }} = {{ .DefaultValuePlaceholder }}  # TODO: fill in value";
    "  {{ end }}";
    "";
    "  # --------------------------------------------------------------------------------------------------------------------";
    "  # Optional input variables";
    "  # Uncomment the ones you wish to set";
    "  # --------------------------------------------------------------------------------------------------------------------";
    "  {{ range .optionalVariables }}";
    "  {{- if eq 1 (regexSplit " +:+ dq +:+ "\n" +:+ dq +:+ " .Description -1 | len ) }}";
    "  # Description: {{ .Description }}";
    "  {{- else }}";
    "  # Description:";
    "    {{- range $line := regexSplit " +:+ dq +:+ "\n" +:+ dq +:+ " .Description -1 }}";
    "    # {{ $line | indent 2 }}";
    "    {{- end }}";
    "  {{- end }}";
    "  # Type: {{ .Type }}";
    "  # {{ .Name }} = {{ .DefaultValue }}";
    "  {{ end }}";
    "}";
    ""
  ].

(** The first steps of [prepareBoilerplateFiles] when a template URL was
    passed: process template url, regenerate template url with all
    changes. *)
Definition resolveTemplateURL (opts : TerragruntOptions)
    (templateURL tempDir : string) : M string :=
  parsedTemplateURL <- wrapErr (ToSourceURL templateURL tempDir) ;;
  parsedTemplateURL <- wrapErr (rewriteTemplateURL opts parsedTemplateURL) ;;
  String_ parsedTemplateURL.

(** [prepareBoilerplateFiles] prepares boilerplate files. *)
Definition prepareBoilerplateFiles (opts : TerragruntOptions)
    (templateURL tempDir : string) : M string :=
  let templateDir := "" in
  templateDir <-
    (if negb (String.eqb templateURL "") then
       templateURL <- resolveTemplateURL opts templateURL tempDir ;;
       templateDir <- wrapErr (os_MkdirTemp "template") ;;
       logger (Infof "Using template from %s" [AString templateURL]) ;;
       wrapErr (onFS (getter_GetAny c templateDir templateURL)) ;;
       ret templateDir
     else ret templateDir) ;;
  let boilerplateDir := util_JoinPath c tempDir (util_DefaultBoilerplateDir c) in
  let boilerplateDir :=
    if negb (String.eqb templateDir "") then templateDir else boilerplateDir in
  exists_ <- files_IsExistingDir boilerplateDir ;;
  if negb exists_ then
    defaultTempDir <- wrapErr (os_MkdirTemp "boilerplate") ;;
    let boilerplateDir := defaultTempDir in
    wrapErr (os_WriteFile (util_JoinPath c boilerplateDir "terragrunt.hcl")
                          DefaultTerragruntTemplate) ;;
    wrapErr (os_WriteFile (util_JoinPath c boilerplateDir "boilerplate.yml")
                          DefaultBoilerplateConfig) ;;
    ret boilerplateDir
  else ret boilerplateDir.

(** [Run] after [tempDir] has been created and registered for cleanup. *)
Definition Run_scaffold (opts : TerragruntOptions)
    (moduleURL templateURL tempDir : string) : M unit :=
  vars <- wrapErr (λ st, (variables_ParseVars c (ScaffoldVars opts)
                            (ScaffoldVarFiles opts) (fs st), st)) ;;
  moduleURL <- wrapErr (parseModuleURL opts vars moduleURL) ;;
  logger (Infof "Scaffolding a new Terragrunt module %s to %s"
                [AString moduleURL; AString (WorkingDir opts)]) ;;
  wrapErr (onFS (getter_GetAny c tempDir moduleURL)) ;;
  variables <- wrapErr (parseVariables opts tempDir) ;;
  let requiredVariables := variables.1 in
  let optionalVariables := variables.2 in
  logger (Debugf "Parsed %d required variables and %d optional variables"
                 [AInt (length requiredVariables);
                  AInt (length optionalVariables)]) ;;
  boilerplateDir <- wrapErr (prepareBoilerplateFiles opts templateURL tempDir) ;;
  let vars := <["requiredVariables" := VVariables requiredVariables]> vars in
  let vars := <["optionalVariables" := VVariables optionalVariables]> vars in
  let vars := <["sourceUrl" := VString moduleURL]> vars in
  logger (Infof "Running boilerplate generation to %s"
                [AString (WorkingDir opts)]) ;;
  let boilerplateOpts :=
    {| OutputFolder := WorkingDir opts; BVars := vars;
       DisableShell := true; DisableHooks := true;
       BNonInteractive := NonInteractive opts;
       TemplateFolder := boilerplateDir |} in
  wrapErr (onFS (templates_ProcessTemplate c boilerplateOpts)) ;;
  logger (Infof "Running fmt on generated code %s"
                [AString (WorkingDir opts)]) ;;
  wrapErr (onFS (hclfmt_Run c opts)) ;;
  logger (Infof "Scaffolding completed" []).

(** The body of [Run] together with the value [dirsToClean] has when the
    body returns. *)
Definition Run_body (opts : TerragruntOptions) (moduleURL templateURL : string)
  : State → list string * (Res unit * State) :=
  λ st,
    let dirsToClean : list string := [] in
    match util_IsDirectoryEmpty c (WorkingDir opts) (fs st) with
    | Panic => (dirsToClean, (Panic, st))
    | Err err => (dirsToClean, (Err err, st))
    | Ok empty =>
        let st :=
          if negb empty
          then (logger (Warnf "The working directory %s is not empty."
                              [AString (WorkingDir opts)]) st).2
          else st in
        if String.eqb moduleURL ""
        then (dirsToClean, (Err (errors_New c NoModuleURLPassed), st))
        else
          match wrapErr (os_MkdirTemp "scaffold") st with
          | (Ok tempDir, st) =>
              let dirsToClean := dirsToClean ++ [tempDir] in
              (dirsToClean, Run_scaffold opts moduleURL templateURL tempDir st)
          | (Err err, st) => (dirsToClean, (Err err, st))
          | (Panic, st) => (dirsToClean, (Panic, st))
          end
    end.

(** The deferred function of [Run]: clean all temp dirs. *)
Definition cleanTempDirs (opts : TerragruntOptions) (dirsToClean : list string)
  : State → State :=
  λ st,
    fold_left
      (λ st dir,
         match os_RemoveAll dir st with
         | (Err err, st) =>
             (logger (Warnf "Failed to clean up dir %s: %v"
                            [AString dir; AError err]) st).2
         | (_, st) => st
         end)
      dirsToClean st.

(** [Run]: the body, then the deferred cleanup, on every way out. *)
Definition Run (opts : TerragruntOptions) (moduleURL templateURL : string)
  : M unit :=
  λ st,
    let '(dirsToClean, (r, st)) := Run_body opts moduleURL templateURL st in
    (r, cleanTempDirs opts dirsToClean st).

End Pipeline.

End scaffold.

(** ** Collaborators and inputs for the examples *)

Module fixtures.
Import url scaffold.

Definition repoSource : string :=
  "git::https://example.com/org/repo.git//modules/foo".

(** What [terraform.ToSourceURL] gives for [repoSource]. *)
Definition repoURL : URL :=
  {| Scheme := "git::https"; Opaque := ""; User := None;
     Host := "example.com"; Path := "/org/repo.git//modules/foo";
     RawPath := ""; ForceQuery := false; RawQuery := ""; Fragment := "" |}.

(** A URL that is only an opaque text. *)
Definition opaqueURL (source : string) : URL :=
  {| Scheme := ""; Opaque := source; User := None; Host := ""; Path := "";
     RawPath := ""; ForceQuery := false; RawQuery := ""; Fragment := "" |}.

(** [repoURL] with a query. *)
Definition repoURLWith (query : string) : URL := setRawQuery repoURL query.

(** [terraform.ToSourceURL] on [repoSource]; other sources are refused. *)
Definition toSourceURL (source workingDir : string) : Res URL :=
  if String.eqb source repoSource then Ok repoURL
  else Err (errorString "unknown source").

(** [URL.String] on a URL with a scheme and a host and without opaque
    part, user or fragment, whose path needs no escaping. *)
Definition plainString (u : URL) : string :=
  Scheme u +:+ "://" +:+ Host u +:+ Path u
  +:+ (if String.eqb (RawQuery u) "" then "" else "?" +:+ RawQuery u).

(** [terraform.SplitSourceURL] on [repoURL]: the repository root and the
    module subdirectory. *)
Definition splitSourceURL_root (u : URL) : URL :=
  {| Scheme := Scheme u; Opaque := Opaque u; User := User u;
     Host := Host u; Path := "/org/repo.git"; RawPath := RawPath u;
     ForceQuery := ForceQuery u; RawQuery := RawQuery u;
     Fragment := Fragment u |}.

Definition splitSourceURL (u : URL) : Res (URL * string) :=
  Ok (splitSourceURL_root u, "modules/foo").

(** A tag lookup that finds [tag], and one that fails. *)
Definition tagFound (tag : string) (_ : URL) : Res string := Ok tag.
Definition tagLookupFails (_ : URL) : Res string :=
  Err (errorString "git ls-remote failed").

(** Collaborators that all succeed: nothing is downloaded or rendered,
    temporary directories are [/tmp/<pattern>1], the user passed
    [vars]. *)
Definition collaborators (vars : Vars) (tag : URL → Res string)
  : Collaborators :=
  {| errors_New := Wrapped;
     fmt_other := λ _, "%!s(?)";
     URL_String := plainString;
     terraform_ToSourceURL := toSourceURL;
     terraform_SplitSourceURL := splitSourceURL;
     shell_GitLastReleaseTag := tag;
     util_IsDirectoryEmpty := λ _ _, Ok true;
     util_JoinPath := λ a b, a +:+ "/" +:+ b;
     util_DefaultBoilerplateDir := ".boilerplate";
     os_MkdirTemp_name := λ pattern _, Ok ("/tmp/" +:+ pattern +:+ "1");
     os_RemoveAll_error := λ _ _, None;
     os_WriteFile_error := λ _ _, None;
     variables_ParseVars := λ _ _ _, Ok vars;
     getter_GetAny := λ _ _ fs, (None, fs);
     config_ParseVariables := λ _ _ _, Ok [];
     templates_ProcessTemplate := λ _ fs, (None, fs);
     hclfmt_Run := λ _ fs, (None, fs) |}.

(** The declarations [a], without default, and [b], with default [5]. *)
Definition declarations : list ParsedVariable :=
  [ {| Name := "a"; Description := ""; Type_ := "string";
       DefaultValue := ""; DefaultValuePlaceholder := dq +:+ dq |};
    {| Name := "b"; Description := ""; Type_ := "number";
       DefaultValue := "5"; DefaultValuePlaceholder := "0" |} ].

(** [c] with a module in which [config.ParseVariables] finds [inputs]. *)
Definition declaring (inputs : list ParsedVariable) (c : Collaborators)
  : Collaborators :=
  {| errors_New := errors_New c;
     fmt_other := fmt_other c;
     URL_String := URL_String c;
     terraform_ToSourceURL := terraform_ToSourceURL c;
     terraform_SplitSourceURL := terraform_SplitSourceURL c;
     shell_GitLastReleaseTag := shell_GitLastReleaseTag c;
     util_IsDirectoryEmpty := util_IsDirectoryEmpty c;
     util_JoinPath := util_JoinPath c;
     util_DefaultBoilerplateDir := util_DefaultBoilerplateDir c;
     os_MkdirTemp_name := os_MkdirTemp_name c;
     os_RemoveAll_error := os_RemoveAll_error c;
     os_WriteFile_error := os_WriteFile_error c;
     variables_ParseVars := variables_ParseVars c;
     getter_GetAny := getter_GetAny c;
     config_ParseVariables := λ _ _ _, Ok inputs;
     templates_ProcessTemplate := templates_ProcessTemplate c;
     hclfmt_Run := hclfmt_Run c |}.

(** [c] with a [terraform.ToSourceURL] that accepts every source and
    keeps it, unparsed, in the field [Opaque] of the URL. *)
Definition keepingSource (c : Collaborators) : Collaborators :=
  {| errors_New := errors_New c;
     fmt_other := fmt_other c;
     URL_String := URL_String c;
     terraform_ToSourceURL := λ source _, Ok (opaqueURL source);
     terraform_SplitSourceURL := terraform_SplitSourceURL c;
     shell_GitLastReleaseTag := shell_GitLastReleaseTag c;
     util_IsDirectoryEmpty := util_IsDirectoryEmpty c;
     util_JoinPath := util_JoinPath c;
     util_DefaultBoilerplateDir := util_DefaultBoilerplateDir c;
     os_MkdirTemp_name := os_MkdirTemp_name c;
     os_RemoveAll_error := os_RemoveAll_error c;
     os_WriteFile_error := os_WriteFile_error c;
     variables_ParseVars := variables_ParseVars c;
     getter_GetAny := getter_GetAny c;
     config_ParseVariables := config_ParseVariables c;
     templates_ProcessTemplate := templates_ProcessTemplate c;
     hclfmt_Run := hclfmt_Run c |}.

(** [c] with a template engine that fails. *)
Definition renderFailing (c : Collaborators) : Collaborators :=
  {| errors_New := errors_New c;
     fmt_other := fmt_other c;
     URL_String := URL_String c;
     terraform_ToSourceURL := terraform_ToSourceURL c;
     terraform_SplitSourceURL := terraform_SplitSourceURL c;
     shell_GitLastReleaseTag := shell_GitLastReleaseTag c;
     util_IsDirectoryEmpty := util_IsDirectoryEmpty c;
     util_JoinPath := util_JoinPath c;
     util_DefaultBoilerplateDir := util_DefaultBoilerplateDir c;
     os_MkdirTemp_name := os_MkdirTemp_name c;
     os_RemoveAll_error := os_RemoveAll_error c;
     os_WriteFile_error := os_WriteFile_error c;
     variables_ParseVars := variables_ParseVars c;
     getter_GetAny := getter_GetAny c;
     config_ParseVariables := config_ParseVariables c;
     templates_ProcessTemplate :=
       λ _ fs, (Some (errorString "template: render failed"), fs);
     hclfmt_Run := hclfmt_Run c |}.

Definition options : TerragruntOptions :=
  {| WorkingDir := "/work"; ScaffoldVars := []; ScaffoldVarFiles := [];
     NonInteractive := true |}.

(** A state whose only URL is [u], at pointer [0], on a filesystem with
    the working directory. *)
Definition stateWith (u : URL) : State :=
  {| heap := {[0 := u]};
     fs := {| fs_dirs := {["/work"]}; fs_files := ∅ |};
     log := [] |}.

(** The state a run starts in. *)
Definition initial : State :=
  {| heap := ∅; fs := {| fs_dirs := {["/work"]}; fs_files := ∅ |};
     log := [] |}.

(** A lookup that finds the tag [v1.2.0], and one that fails. *)
Definition finding : Collaborators := collaborators ∅ (tagFound "v1.2.0").
Definition failing : Collaborators := collaborators ∅ tagLookupFails.

End fixtures.

(** ** The vocabulary of the properties *)

Section QueryVocabulary.
Import url GoStrings.

(** The three bytes that structure a query. *)
Definition isQuerySep (sep : ascii) : Prop :=
  sep = "&"%char ∨ sep = "="%char ∨ sep = ";"%char.

(** The text [Encode] writes for one key/value pair. *)
Definition pairPiece (kv : string * string) : string :=
  QueryEscape kv.1 +:+ "=" +:+ QueryEscape kv.2.

(** [Encode] as one pass over the list of key/value pairs. *)
Definition writeAll (buf : string) (ps : list (string * string)) : string :=
  fold_left (λ buf kv, writePair (QueryEscape kv.1) buf kv.2) ps buf.

(** The key/value pairs of [v] in the order of [keys]. *)
Definition pairsOf (v : Values) (keys : list string)
  : list (string * string) :=
  flat_map (λ k, pair k <$> default [] (v !! k)) keys.

(** [Add] for each pair of [ps] in turn. *)
Definition addPairs (m : Values) (ps : list (string * string)) : Values :=
  fold_left (λ m kv, Add m kv.1 kv.2) ps m.

(** Maps that [ParseQuery], [Set] and [Add] build never hold a key with
    no value. *)
Definition Values_wf (v : Values) : Prop :=
  ∀ k vs, v !! k = Some vs → vs ≠ [].

End QueryVocabulary.

Section PipelineVocabulary.
Import url scaffold util.
Context (c : Collaborators).

(** [st] after the assignment [p.RawQuery = q], when [p] points to [u]. *)
Definition withRawQuery (p : nat) (u : URL) (q : string) (st : State) : State :=
  {| heap := <[p := setRawQuery u q]> (heap st); fs := fs st; log := log st |}.

(** [st] after a call of the logger. *)
Definition logged (e : LogEntry) (st : State) : State :=
  {| heap := heap st; fs := fs st; log := log st ++ [e] |}.

(** The tag-lookup branch the two functions share, on the URL value [u]
    stored at [p] and the parsed query [params]. *)
Definition pinLatestTag (format : string) (p : nat) (u : URL)
    (params : Values) (st : State) : Res nat * State :=
  match terraform_SplitSourceURL c u with
  | Ok split =>
      match shell_GitLastReleaseTag c split.1 with
      | Ok tag =>
          if String.eqb tag ""
          then (Ok p, logged (Warnf format [AURL split.1]) st)
          else (Ok p, withRawQuery p u (Encode (Add params refParam tag)) st)
      | Err _ => (Ok p, logged (Warnf format [AURL split.1]) st)
      | Panic => (Panic, st)
      end
  | Err e => (Err (errors_New c e), st)
  | Panic => (Panic, st)
  end.

(** The warnings of [addRefToModuleURL] and of [rewriteTemplateURL]. *)
Definition moduleWarning : string := "Failed to find last release tag for %s".
Definition templateWarning : string :=
  "Failed to find last release tag for URL %s, so will not add a ref param to the URL".

(** The fields of a URL other than [RawQuery]. *)
Definition sameButRawQuery (u u' : URL) : Prop :=
  Scheme u' = Scheme u ∧ Opaque u' = Opaque u ∧ User u' = User u
  ∧ Host u' = Host u ∧ Path u' = Path u ∧ RawPath u' = RawPath u
  ∧ ForceQuery u' = ForceQuery u ∧ Fragment u' = Fragment u.

(** From [st] to [st'] nothing changed but the URL behind [p], which
    was [u], and of that URL nothing but [RawQuery]. *)
Definition touchesOnlyRawQuery (p : nat) (u : URL) (st st' : State) : Prop :=
  fs st' = fs st
  ∧ ∃ u', heap st' = <[p := u']> (heap st) ∧ sameButRawQuery u u'.

(** A returned pointer is the pointer that was passed. *)
Definition returnsPointer (p : nat) (r : Res nat) : Prop :=
  match r with
  | Ok p' => p' = p
  | Err _ | Panic => True
  end.

(** A declaration goes to the required list. *)
Definition isRequired (value : ParsedVariable) : Prop := DefaultValue value = "".

#[global] Instance isRequired_dec value : Decision (isRequired value).
Proof. unfold isRequired. apply _. Defined.

(** The source URL type the variables ask for. *)
Definition requestedType (vars : Vars) : string :=
  match vars !! sourceURLTypeVar with
  | Some value => Sprintf_s c value
  | None => sourceURLTypeHTTPS
  end.

(** The user of the rebuilt URL. *)
Definition requestedUser (vars : Vars) : string :=
  match vars !! sourceGitSSHUserVar with
  | Some value => Sprintf_s c value
  | None => sourceGitSSHUser
  end.

(** The pattern matched with scheme [https] and the variables select
    [git-ssh]. *)
Definition rewriteTriggers (vars : Vars) (moduleURL : string) : Prop :=
  ∃ parsedValue,
    FindStringSubmatch moduleURL = Some parsedValue
    ∧ scheme parsedValue = "https"
    ∧ requestedType vars = sourceURLTypeGit.

(** An exit status is recovered from [err]: [GetExitCode] returns a code
    with a nil error. *)
Definition recoversExitStatus (err : option error) : Prop :=
  (GetExitCode err).2 = None.

End PipelineVocabulary.

(** ** The vocabulary of the further properties *)

Section ErrorVocabulary.
Import util.

(** [err] inside [n] wrappers. *)
Fixpoint wrapN (n : nat) (err : error) : error :=
  match n with
  | 0 => err
  | S n => Wrapped (wrapN n err)
  end.

(** [e] is [err] or one of its parts: what it wraps, the [Err] of a
    [ProcessExecutionError], a member of a multierror. *)
Fixpoint occursIn (e : error) (err : error) : Prop :=
  e = err
  ∨ match err with
    | Wrapped inner => occursIn e inner
    | ProcessExecutionError (Some inner) => occursIn e inner
    | MultiError errs | chain errs =>
        (fix any (errs : list error) : Prop :=
           match errs with
           | [] => False
           | member :: errs => occursIn e member ∨ any errs
           end) errs
    | errorString _ | ExitError _ | ProcessExecutionError None => False
    end.

(** The assertion to [*exec.ExitError], by the exit status. *)
Definition assertExitError (err : error) : option Z :=
  match err with
  | ExitError status => Some status
  | _ => None
  end.

(** The assertion to [util.ProcessExecutionError], by the field [Err]. *)
Definition assertProcessExecutionError (err : error) : option (option error) :=
  match err with
  | ProcessExecutionError Err => Some Err
  | _ => None
  end.

End ErrorVocabulary.

Section ScaffoldVocabulary.
Import url scaffold.

(** The forced getters that [moduleURLPattern] accepts. *)
Definition forcedGetters : list string := ["git"; "hg"; "s3"; "gcs"].

(** [c] with another [terraform.SplitSourceURL] and another tag lookup. *)
Definition withLookup (split : URL → Res (URL * string))
    (tag : URL → Res string) (c : Collaborators) : Collaborators :=
  {| errors_New := errors_New c;
     fmt_other := fmt_other c;
     URL_String := URL_String c;
     terraform_ToSourceURL := terraform_ToSourceURL c;
     terraform_SplitSourceURL := split;
     shell_GitLastReleaseTag := tag;
     util_IsDirectoryEmpty := util_IsDirectoryEmpty c;
     util_JoinPath := util_JoinPath c;
     util_DefaultBoilerplateDir := util_DefaultBoilerplateDir c;
     os_MkdirTemp_name := os_MkdirTemp_name c;
     os_RemoveAll_error := os_RemoveAll_error c;
     os_WriteFile_error := os_WriteFile_error c;
     variables_ParseVars := variables_ParseVars c;
     getter_GetAny := getter_GetAny c;
     config_ParseVariables := config_ParseVariables c;
     templates_ProcessTemplate := templates_ProcessTemplate c;
     hclfmt_Run := hclfmt_Run c |}.

(** What holds of the three parts of a match. *)
Definition wellFormedParts (m : parsedURL) : Prop :=
  (scheme m ≠ "" ∧ GoStrings.Contains (scheme m) ":" = false)
  ∧ (host m ≠ "" ∧ GoStrings.Contains (host m) "/" = false)
  ∧ GoStrings.Contains (path m) "010" = false
  ∧ path m = "/" +:+ GoStrings.TrimPrefix (path m) "/".

(** [m] leaves the filesystem as it is. *)
Definition keepsFS {A} (m : M A) : Prop := ∀ st, fs (m st).2 = fs st.

(** [f] with the directory [name]. *)
Definition withDir (name : string) (f : FS) : FS :=
  {| fs_dirs := {[name]} ∪ fs_dirs f; fs_files := fs_files f |}.

(** No directory and no file of [f] is [path] or lies below it. *)
Definition unused (path : string) (f : FS) : Prop :=
  (∀ d, d ∈ fs_dirs f → ¬ below path d)
  ∧ (∀ name data, fs_files f !! name = Some data → ¬ below path name).

(** The state in which [Run] starts to work in the directory [tempDir] it
    has made: after the warning, if the working directory is not empty. *)
Definition started (opts : TerragruntOptions) (empty : bool)
    (tempDir : string) (st : State) : State :=
  let st :=
    if empty then st
    else logged (Warnf "The working directory %s is not empty."
                       [AString (WorkingDir opts)]) st in
  {| heap := heap st; fs := withDir tempDir (fs st); log := log st |}.

(** [c] with a getter that downloads one file, [main.tf], into [dst]. *)
Definition downloading (c : Collaborators) : Collaborators :=
  {| errors_New := errors_New c;
     fmt_other := fmt_other c;
     URL_String := URL_String c;
     terraform_ToSourceURL := terraform_ToSourceURL c;
     terraform_SplitSourceURL := terraform_SplitSourceURL c;
     shell_GitLastReleaseTag := shell_GitLastReleaseTag c;
     util_IsDirectoryEmpty := util_IsDirectoryEmpty c;
     util_JoinPath := util_JoinPath c;
     util_DefaultBoilerplateDir := util_DefaultBoilerplateDir c;
     os_MkdirTemp_name := os_MkdirTemp_name c;
     os_RemoveAll_error := os_RemoveAll_error c;
     os_WriteFile_error := os_WriteFile_error c;
     variables_ParseVars := variables_ParseVars c;
     getter_GetAny :=
       λ dst _ f,
         (None, {| fs_dirs := fs_dirs f;
                   fs_files := <[dst +:+ "/main.tf" := "# module"]>
                                 (fs_files f) |});
     config_ParseVariables := config_ParseVariables c;
     templates_ProcessTemplate := templates_ProcessTemplate c;
     hclfmt_Run := hclfmt_Run c |}.

(** [c] with a [variables.ParseVars] that fails. *)
Definition rejectingVars (c : Collaborators) : Collaborators :=
  {| errors_New := errors_New c;
     fmt_other := fmt_other c;
     URL_String := URL_String c;
     terraform_ToSourceURL := terraform_ToSourceURL c;
     terraform_SplitSourceURL := terraform_SplitSourceURL c;
     shell_GitLastReleaseTag := shell_GitLastReleaseTag c;
     util_IsDirectoryEmpty := util_IsDirectoryEmpty c;
     util_JoinPath := util_JoinPath c;
     util_DefaultBoilerplateDir := util_DefaultBoilerplateDir c;
     os_MkdirTemp_name := os_MkdirTemp_name c;
     os_RemoveAll_error := os_RemoveAll_error c;
     os_WriteFile_error := os_WriteFile_error c;
     variables_ParseVars :=
       λ _ _ _, Err (errorString "invalid variable");
     getter_GetAny := getter_GetAny c;
     config_ParseVariables := config_ParseVariables c;
     templates_ProcessTemplate := templates_ProcessTemplate c;
     hclfmt_Run := hclfmt_Run c |}.

(** A state in which the module directory holds its own boilerplate
    directory. *)
Definition withModuleBoilerplate : State :=
  {| heap := ∅;
     fs := {| fs_dirs := {["/work"; "/tmp/scaffold1";
                           "/tmp/scaffold1/.boilerplate"]};
              fs_files := ∅ |};
     log := [] |}.

End ScaffoldVocabulary.

(** ** The suffix option of the log format *)

Module format_options.

Definition SuffixOptionName : string := "suffix".

(** [CommonOption[T]], declared in another file of the package:
    [NewCommonOption(name, value, values)] stores its three arguments;
    [values], the table of named values, is nil for a suffix. *)
Record CommonOption (T : Type) := mkCommonOption {
  name : string;
  value : T;
  values : option (list (string * T))
}.
Arguments mkCommonOption {T} name value values.
Arguments name {T} _.
Arguments value {T} _.
Arguments values {T} _.

Definition NewCommonOption {T} (name : string) (value : T)
    (values : option (list (string * T))) : CommonOption T :=
  {| name := name; value := value; values := values |}.

(** [type SuffixOption struct { *CommonOption[string] }]. *)
Record SuffixOption := mkSuffixOption {
  CommonOption_ : CommonOption string
}.

Section Methods.
Context {Data : Type}.

(** [func (option *SuffixOption) Evaluate(data *Data, str string)]. *)
Definition Evaluate (option : SuffixOption) (data : Data) (str : string)
  : string * Datatypes.option error :=
  (str +:+ value (CommonOption_ option), None).

End Methods.

(** [func (option *SuffixOption) ParseValue(str string) error]: the
    option after the assignment, and the error. *)
Definition ParseValue (option : SuffixOption) (str : string)
  : SuffixOption * Datatypes.option error :=
  ({| CommonOption_ :=
        {| name := name (CommonOption_ option); value := str;
           values := values (CommonOption_ option) |} |},
   None).

(** [func Suffix(value string) Option]. *)
Definition Suffix (value : string) : SuffixOption :=
  {| CommonOption_ := NewCommonOption SuffixOptionName value None |}.

End format_options.

(* ===================================================================== *)
(** * Part II: properties                                                 *)
(* ===================================================================== *)

(** ** Round trip of the query encoding *)

Section QueryRoundTrip.
Import url GoStrings.

Lemma append_nil (b : string) : "" +:+ b = b.
Proof. reflexivity. Qed.

Lemma append_cons x (a b : string) : String x a +:+ b = String x (a +:+ b).
Proof. reflexivity. Qed.

Lemma append_assoc (a b c : string) : (a +:+ b) +:+ c = a +:+ (b +:+ c).
Proof.
  induction a as [|x a IH]; [done|]. by rewrite !append_cons, IH.
Qed.

Lemma append_nonempty_r (a b : string) : b ≠ "" → a +:+ b ≠ "".
Proof. destruct a; [done|]. rewrite append_cons. discriminate. Qed.

Lemma Contains_app a b c :
  Contains (a +:+ b) c = Contains a c || Contains b c.
Proof.
  induction a as [|x a IH]; [done|].
  rewrite append_cons. cbn. by rewrite IH, orb_assoc.
Qed.

Lemma unescape_escapeByte c t :
  QueryUnescape (escapeByte c +:+ t) = String c <$> QueryUnescape t.
Proof. destruct c as [[] [] [] [] [] [] [] []]; reflexivity. Qed.

Lemma QueryUnescape_QueryEscape s : QueryUnescape (QueryEscape s) = Some s.
Proof.
  induction s as [|c r IH]; [done|].
  cbn [QueryEscape]. by rewrite unescape_escapeByte, IH.
Qed.

Lemma escapeByte_no_sep c sep :
  isQuerySep sep → Contains (escapeByte c) sep = false.
Proof.
  intros [->|[->| ->]]; destruct c as [[] [] [] [] [] [] [] []]; reflexivity.
Qed.

Lemma QueryEscape_no_sep s sep :
  isQuerySep sep → Contains (QueryEscape s) sep = false.
Proof.
  intros Hsep. induction s as [|c r IH]; cbn; [done|].
  by rewrite Contains_app, escapeByte_no_sep, IH.
Qed.

Lemma Cut_sep a b sep :
  Contains a sep = false → Cut (a +:+ String sep b) sep = (a, b, true).
Proof.
  induction a as [|x a IH]; intros H.
  - rewrite append_nil. cbn. by rewrite Ascii.eqb_refl.
  - rewrite append_cons. cbn in *.
    apply orb_false_iff in H as [H1 H2]. by rewrite H1, (IH H2).
Qed.

Lemma Pieces_nonempty s sep : Pieces s sep ≠ [].
Proof.
  destruct s as [|c r]; cbn; [done|].
  destruct (Ascii.eqb c sep); [done|]. by destruct (Pieces r sep).
Qed.

Lemma Pieces_no_sep s sep : Contains s sep = false → Pieces s sep = [s].
Proof.
  induction s as [|c r IH]; cbn; intros H; [done|].
  apply orb_false_iff in H as [H1 H2]. by rewrite H1, (IH H2).
Qed.

Lemma Pieces_app_sep a b sep :
  Contains b sep = false →
  Pieces (a +:+ String sep b) sep = Pieces a sep ++ [b].
Proof.
  intros Hb. induction a as [|c a IH].
  - rewrite append_nil. cbn.
    by rewrite Ascii.eqb_refl, (Pieces_no_sep b sep Hb).
  - rewrite append_cons. cbn.
    destruct (Ascii.eqb c sep); [by rewrite IH|].
    rewrite IH. pose proof (Pieces_nonempty a sep).
    by destruct (Pieces a sep).
Qed.

Lemma pairPiece_nonempty kv : pairPiece kv ≠ "".
Proof. apply append_nonempty_r. discriminate. Qed.

Lemma pairPiece_no_amp kv : Contains (pairPiece kv) "&" = false.
Proof.
  unfold pairPiece. rewrite !Contains_app.
  rewrite !QueryEscape_no_sep by (left; done). done.
Qed.

Lemma parsePiece_pair m k v : parsePiece m (pairPiece (k, v)) = Add m k v.
Proof.
  unfold parsePiece.
  assert (Contains (pairPiece (k, v)) ";" = false) as ->.
  { unfold pairPiece. rewrite !Contains_app.
    rewrite !QueryEscape_no_sep by (right; right; done). done. }
  destruct (String.eqb_spec (pairPiece (k, v)) "") as [E|_].
  { by destruct (pairPiece_nonempty (k, v)). }
  unfold pairPiece; cbn [fst snd].
  rewrite (append_cons "=" ""), append_nil.
  rewrite Cut_sep by (apply QueryEscape_no_sep; right; left; done).
  by rewrite !QueryUnescape_QueryEscape.
Qed.

Lemma Encode_writeAll v : Encode v = writeAll "" (pairsOf v (sortedKeys v)).
Proof.
  unfold Encode, writeAll, pairsOf. generalize "" as buf.
  induction (sortedKeys v) as [|k ks IH]; intros buf; cbn; [done|].
  rewrite fold_left_app, IH. f_equal.
  generalize buf. induction (default [] (v !! k)) as [|x xs IHx];
    intros buf'; cbn; [done|]. by rewrite IHx.
Qed.

Lemma writePair_nonempty k buf v : writePair k buf v ≠ "".
Proof.
  unfold writePair. apply append_nonempty_r, append_nonempty_r.
  discriminate.
Qed.

Lemma writePair_empty kv : writePair (QueryEscape kv.1) "" kv.2 = pairPiece kv.
Proof. reflexivity. Qed.

Lemma writePair_pieces buf kv :
  buf ≠ "" →
  Pieces (writePair (QueryEscape kv.1) buf kv.2) "&"
  = Pieces buf "&" ++ [pairPiece kv].
Proof.
  intros Hbuf. unfold writePair.
  destruct (String.eqb_spec buf "") as [E|_]; [done|].
  rewrite append_assoc, (append_cons "&" ""), append_nil.
  apply (Pieces_app_sep buf (pairPiece kv)), pairPiece_no_amp.
Qed.

Lemma writeAll_pieces buf ps :
  buf ≠ "" →
  Pieces (writeAll buf ps) "&" = Pieces buf "&" ++ (pairPiece <$> ps).
Proof.
  revert buf. induction ps as [|kv ps IH]; intros buf Hbuf; cbn.
  - by rewrite app_nil_r.
  - unfold writeAll in IH. rewrite IH by apply writePair_nonempty.
    rewrite writePair_pieces by done. by rewrite <- app_assoc.
Qed.

Lemma fold_parsePiece_pairs m ps :
  fold_left parsePiece (pairPiece <$> ps) m = addPairs m ps.
Proof.
  revert m. induction ps as [|[k v] ps IH]; intros m; cbn; [done|].
  by rewrite parsePiece_pair, IH.
Qed.

Lemma ParseQuery_writeAll ps : ParseQuery (writeAll "" ps) = addPairs ∅ ps.
Proof.
  unfold ParseQuery. destruct ps as [|kv ps]; [done|].
  cbn [writeAll fold_left]. fold (writeAll (writePair (QueryEscape kv.1) "" kv.2) ps).
  rewrite writeAll_pieces by apply writePair_nonempty.
  rewrite writePair_empty, Pieces_no_sep by apply pairPiece_no_amp.
  apply (fold_parsePiece_pairs ∅ (kv :: ps)).
Qed.

Lemma addPairs_cons m kv ps :
  addPairs m (kv :: ps) = addPairs (Add m kv.1 kv.2) ps.
Proof. reflexivity. Qed.

Lemma addPairs_app m ps qs :
  addPairs m (ps ++ qs) = addPairs (addPairs m ps) qs.
Proof. apply fold_left_app. Qed.

Lemma addPairs_key m k vs :
  addPairs m (pair k <$> vs)
  = match vs with
    | [] => m
    | _ => <[k := default [] (m !! k) ++ vs]> m
    end.
Proof.
  revert m. induction vs as [|x xs IH]; intros m; [done|].
  rewrite fmap_cons, addPairs_cons, IH. cbn [fst snd]. destruct xs as [|y ys]; [done|].
  unfold Add. rewrite lookup_insert_eq, insert_insert_eq. cbn [default id].
  by rewrite <- app_assoc.
Qed.

Lemma addPairs_pairsOf_lookup v keys m k :
  NoDup keys →
  addPairs m (pairsOf v keys) !! k
  = if decide (k ∈ keys)
    then match default [] (v !! k) with
         | [] => m !! k
         | vs => Some (default [] (m !! k) ++ vs)
         end
    else m !! k.
Proof.
  intros Hnd. revert m. induction Hnd as [|k0 ks Hk0 Hnd IH]; intros m.
  { cbn. by rewrite decide_False by apply not_elem_of_nil. }
  cbn [pairsOf flat_map]. fold (pairsOf v ks).
  rewrite addPairs_app, IH, addPairs_key.
  destruct (decide (k = k0)) as [->|Hne].
  - rewrite (decide_False (P := k0 ∈ ks)) by done.
    rewrite (decide_True (P := k0 ∈ k0 :: ks)) by apply list_elem_of_here.
    destruct (default [] (v !! k0)); [done|]. by rewrite lookup_insert_eq.
  - assert (∀ vs' : list string,
             match vs' with
             | [] => m
             | _ => <[k0 := default [] (m !! k0) ++ vs']> m
             end !! k = m !! k) as Hm.
    { intros [|? ?]; [done|]. by rewrite lookup_insert_ne. }
    rewrite !Hm.
    destruct (decide (k ∈ ks)) as [Hin|Hnin].
    + by rewrite decide_True by (by apply list_elem_of_further).
    + rewrite decide_False; [done|].
      intros [?|?]%elem_of_cons; done.
Qed.

Lemma elem_of_sortedKeys v k : k ∈ sortedKeys v ↔ is_Some (v !! k).
Proof.
  unfold sortedKeys. rewrite merge_sort_Permutation.
  rewrite list_elem_of_fmap. split.
  - intros [[k' vs] [-> Hin]]. apply elem_of_map_to_list in Hin. by exists vs.
  - intros [vs Hvs]. exists (k, vs). split; [done|].
    by apply elem_of_map_to_list.
Qed.

Lemma NoDup_sortedKeys v : NoDup (sortedKeys v).
Proof.
  unfold sortedKeys. rewrite merge_sort_Permutation.
  apply NoDup_fst_map_to_list.
Qed.

(** Parsing what [Encode] wrote gives the map back. *)
Lemma ParseQuery_Encode v : Values_wf v → ParseQuery (Encode v) = v.
Proof.
  intros Hwf. rewrite Encode_writeAll, ParseQuery_writeAll.
  apply map_eq; intros k.
  rewrite addPairs_pairsOf_lookup by apply NoDup_sortedKeys.
  destruct (decide (k ∈ sortedKeys v)) as [Hin|Hnin].
  - apply elem_of_sortedKeys in Hin as [vs Hvs]. rewrite Hvs. cbn.
    specialize (Hwf k vs Hvs). by destruct vs.
  - rewrite lookup_empty. symmetry. apply eq_None_not_Some.
    by rewrite <- elem_of_sortedKeys.
Qed.

Lemma Values_wf_empty : Values_wf ∅.
Proof. intros k vs. by rewrite lookup_empty. Qed.

Lemma Values_wf_Add v k x : Values_wf v → Values_wf (Add v k x).
Proof.
  intros Hwf k' vs. unfold Add.
  destruct (decide (k = k')) as [->|Hne].
  - rewrite lookup_insert_eq. intros [= <-]. by destruct (default [] (v !! k')).
  - rewrite lookup_insert_ne by done. apply Hwf.
Qed.

Lemma Values_wf_Set v k x : Values_wf v → Values_wf (Set_ v k x).
Proof.
  intros Hwf k' vs. unfold Set_.
  destruct (decide (k = k')) as [->|Hne].
  - rewrite lookup_insert_eq. by intros [= <-].
  - rewrite lookup_insert_ne by done. apply Hwf.
Qed.

Lemma Values_wf_parsePiece v piece : Values_wf v → Values_wf (parsePiece v piece).
Proof.
  intros Hwf. unfold parsePiece.
  destruct (Contains piece ";"); [done|].
  destruct (String.eqb piece ""); [done|].
  destruct (Cut piece "=") as [[key value] found].
  destruct (QueryUnescape key); [|done].
  destruct (QueryUnescape value); [|done].
  by apply Values_wf_Add.
Qed.

Lemma Values_wf_ParseQuery q : Values_wf (ParseQuery q).
Proof.
  unfold ParseQuery. generalize (Pieces q "&").
  intros ps. generalize Values_wf_empty. generalize (∅ : Values).
  induction ps as [|p ps IH]; intros m Hm; cbn; [done|].
  by apply IH, Values_wf_parsePiece.
Qed.

End QueryRoundTrip.

(** ** Reference pinning: [addRefToModuleURL] and [rewriteTemplateURL] *)

Section RefPinning.
Import url scaffold.
Context (c : Collaborators) (opts : TerragruntOptions).

Lemma withRawQuery_lookup p u q st :
  heap (withRawQuery p u q st) !! p = Some (setRawQuery u q).
Proof. apply lookup_insert_eq. Qed.

Lemma addRefToModuleURL_unfold p vars st u :
  heap st !! p = Some u →
  addRefToModuleURL c opts p vars st
  = match vars !! refVar with
    | Some v =>
        let params := Set_ (Query u) refParam (Sprintf_s c v) in
        let st1 := withRawQuery p u (Encode params) st in
        if String.eqb (Get params refParam) ""
        then pinLatestTag c moduleWarning p (setRawQuery u (Encode params)) params st1
        else (Ok p, st1)
    | None =>
        if String.eqb (Get (Query u) refParam) ""
        then pinLatestTag c moduleWarning p u (Query u) st
        else (Ok p, st)
    end.
Proof.
  intros Hu. unfold addRefToModuleURL, pinLatestTag, bind, load.
  rewrite Hu. destruct (vars !! refVar) as [v|]; cbn zeta.
  - unfold storeRawQuery, ret. rewrite Hu. cbn [heap].
    fold (withRawQuery p u (Encode (Set_ (Query u) refParam (Sprintf_s c v))) st).
    destruct (String.eqb _ ""); [|done].
    rewrite withRawQuery_lookup. unfold wrapErr, lift.
    destruct (terraform_SplitSourceURL c _) as [split|e|]; [|done|done].
    destruct (shell_GitLastReleaseTag c _) as [tag|e|]; [|done|done].
    destruct (String.eqb tag ""); [done|].
    cbn. by rewrite lookup_insert_eq.
  - unfold ret. destruct (String.eqb _ ""); [|done].
    rewrite Hu. unfold wrapErr, lift.
    destruct (terraform_SplitSourceURL c _) as [split|e|]; [|done|done].
    destruct (shell_GitLastReleaseTag c _) as [tag|e|]; [|done|done].
    destruct (String.eqb tag ""); [done|].
    unfold storeRawQuery. by rewrite Hu.
Qed.

Lemma rewriteTemplateURL_unfold p st u :
  heap st !! p = Some u →
  rewriteTemplateURL c opts p st
  = if String.eqb (Get (Query u) refParam) ""
    then pinLatestTag c templateWarning p u (Query u) st
    else (Ok p, st).
Proof.
  intros Hu. unfold rewriteTemplateURL, pinLatestTag, bind, load.
  rewrite Hu. unfold ret. destruct (String.eqb _ ""); [|done].
  unfold wrapErr, lift.
  destruct (terraform_SplitSourceURL c _) as [split|e|]; [|done|done].
  destruct (shell_GitLastReleaseTag c _) as [tag|e|]; [|done|done].
  destruct (String.eqb tag ""); [done|].
  unfold storeRawQuery. by rewrite Hu.
Qed.

Lemma Get_Set (v : Values) k x : Get (Set_ v k x) k = x.
Proof. unfold Get, Set_. by rewrite lookup_insert_eq. Qed.

Lemma Set_Set (v : Values) k x y : Set_ (Set_ v k x) k y = Set_ v k y.
Proof. unfold Set_. by rewrite insert_insert_eq. Qed.

Lemma Set_Add (v : Values) k x y : Set_ (Add v k x) k y = Set_ v k y.
Proof. unfold Set_, Add. by rewrite insert_insert_eq. Qed.

Lemma Get_Add_fresh (v : Values) k x : v !! k = None → Get (Add v k x) k = x.
Proof. intros H. unfold Get, Add. by rewrite lookup_insert_eq, H. Qed.

Lemma setRawQuery_twice u q q' :
  setRawQuery (setRawQuery u q) q' = setRawQuery u q'.
Proof. reflexivity. Qed.

Lemma Values_wf_Query u : Values_wf (Query u).
Proof. apply Values_wf_ParseQuery. Qed.

Lemma Query_Encode u v : Values_wf v → Query (setRawQuery u (Encode v)) = v.
Proof. intros. unfold Query. cbn. by apply ParseQuery_Encode. Qed.

Lemma sameButRawQuery_set u q : sameButRawQuery u (setRawQuery u q).
Proof. by repeat split. Qed.

Lemma touchesOnlyRawQuery_refl p u st :
  heap st !! p = Some u → touchesOnlyRawQuery p u st st.
Proof.
  intros Hu. split; [done|]. exists u. split; [by rewrite insert_id|].
  by repeat split.
Qed.

Lemma touchesOnlyRawQuery_logged p u st st' e :
  touchesOnlyRawQuery p u st st' → touchesOnlyRawQuery p u st (logged e st').
Proof. done. Qed.

Lemma touchesOnlyRawQuery_with p u u' q st st' :
  touchesOnlyRawQuery p u st st' → sameButRawQuery u u' →
  touchesOnlyRawQuery p u st (withRawQuery p u' q st').
Proof.
  intros [Hfs [u1 [Hheap _]]] Hsame. split; [done|].
  exists (setRawQuery u' q). split; [|done].
  cbn. by rewrite Hheap, insert_insert_eq.
Qed.

Lemma pinLatestTag_frame format p u0 u params st0 st :
  touchesOnlyRawQuery p u0 st0 st → sameButRawQuery u0 u →
  returnsPointer p (pinLatestTag c format p u params st).1
  ∧ touchesOnlyRawQuery p u0 st0 (pinLatestTag c format p u params st).2.
Proof.
  intros Hst Hu. unfold pinLatestTag.
  destruct (terraform_SplitSourceURL c u) as [split|e|]; [|done|done].
  destruct (shell_GitLastReleaseTag c split.1) as [tag|e|]; [|done|done].
  destruct (String.eqb tag ""); [done|].
  split; [done|]. by apply touchesOnlyRawQuery_with.
Qed.

(** C9: [addRefToModuleURL] and [rewriteTemplateURL] change nothing but
    the [RawQuery] field of the URL behind the pointer they are given:
    scheme, host, user, path and the other fields are those of the input,
    no other URL and no file changes, and the pointer they return is the
    pointer they were given. *)
Theorem ref_pinning_touches_only_RawQuery p vars st u :
  heap st !! p = Some u →
  (returnsPointer p (addRefToModuleURL c opts p vars st).1
   ∧ touchesOnlyRawQuery p u st (addRefToModuleURL c opts p vars st).2)
  ∧ (returnsPointer p (rewriteTemplateURL c opts p st).1
     ∧ touchesOnlyRawQuery p u st (rewriteTemplateURL c opts p st).2).
Proof.
  intros Hu. pose proof (touchesOnlyRawQuery_refl p u st Hu) as Hrefl.
  rewrite (addRefToModuleURL_unfold p vars st u Hu),
          (rewriteTemplateURL_unfold p st u Hu). split.
  - destruct (vars !! refVar) as [v|]; cbn zeta.
    + assert (touchesOnlyRawQuery p u st
                (withRawQuery p u (Encode (Set_ (Query u) refParam (Sprintf_s c v))) st))
        as Hst1 by (by apply touchesOnlyRawQuery_with; [|repeat split]).
      destruct (String.eqb _ ""); [|done].
      by apply pinLatestTag_frame; [|apply sameButRawQuery_set].
    + destruct (String.eqb _ ""); [|done].
      by apply pinLatestTag_frame; [|repeat split].
  - destruct (String.eqb _ ""); [|done].
    by apply pinLatestTag_frame; [|repeat split].
Qed.

(** C3, as amended: when the override variable [Ref] is passed and
    formats to a non-empty string, [addRefToModuleURL] returns the
    pointer with a nil error and the URL's query then holds exactly that
    value under [ref], whatever ref the URL carried before and whatever
    the collaborators (the tag lookup among them) would answer. *)
Theorem addRef_nonempty_override_wins p vars st u v :
  heap st !! p = Some u →
  vars !! refVar = Some v →
  Sprintf_s c v ≠ "" →
  ∃ st' u',
    addRefToModuleURL c opts p vars st = (Ok p, st')
    ∧ heap st' !! p = Some u'
    ∧ Query u' !! refParam = Some [Sprintf_s c v]
    ∧ Get (Query u') refParam = Sprintf_s c v
    ∧ RawQuery u' = Encode (Set_ (Query u) refParam (Sprintf_s c v)).
Proof.
  intros Hu Hv Hne.
  pose (params := Set_ (Query u) refParam (Sprintf_s c v)).
  exists (withRawQuery p u (Encode params) st), (setRawQuery u (Encode params)).
  rewrite (addRefToModuleURL_unfold p vars st u Hu), Hv. cbn zeta.
  rewrite Get_Set.
  destruct (String.eqb_spec (Sprintf_s c v) "") as [E|_]; [done|].
  assert (Query (setRawQuery u (Encode params)) = params) as Hq.
  { apply Query_Encode, Values_wf_Set, Values_wf_Query. }
  rewrite Hq. subst params. repeat split.
  - apply withRawQuery_lookup.
  - apply lookup_insert_eq.
  - apply Get_Set.
Qed.

(** The only error the two functions return is the error of
    [terraform.SplitSourceURL], wrapped: a failed lookup is never
    returned. *)
Lemma pinLatestTag_error format p u params st e st' :
  pinLatestTag c format p u params st = (Err e, st') →
  ∃ e', terraform_SplitSourceURL c u = Err e' ∧ e = errors_New c e'.
Proof.
  unfold pinLatestTag.
  destruct (terraform_SplitSourceURL c u) as [split|e'|]; [| |done].
  - destruct (shell_GitLastReleaseTag c split.1) as [tag|?|]; [|done|done].
    by destruct (String.eqb tag "").
  - intros [= <- <-]. by exists e'.
Qed.

Lemma ref_pinning_error_is_split_error p vars st u e st' :
  heap st !! p = Some u →
  addRefToModuleURL c opts p vars st = (Err e, st')
  ∨ rewriteTemplateURL c opts p st = (Err e, st') →
  ∃ u1 e', sameButRawQuery u u1
           ∧ terraform_SplitSourceURL c u1 = Err e' ∧ e = errors_New c e'.
Proof.
  intros Hu.
  rewrite (addRefToModuleURL_unfold p vars st u Hu),
          (rewriteTemplateURL_unfold p st u Hu).
  intros [Hrun|Hrun].
  - destruct (vars !! refVar) as [v|]; cbn zeta in Hrun.
    + destruct (String.eqb _ "") in Hrun; [|done].
      apply pinLatestTag_error in Hrun as (e' & Hsplit & ->).
      eexists _, e'. split; [apply sameButRawQuery_set|done].
    + destruct (String.eqb _ "") in Hrun; [|done].
      apply pinLatestTag_error in Hrun as (e' & Hsplit & ->).
      exists u, e'. by repeat split.
  - destruct (String.eqb _ "") in Hrun; [|done].
    apply pinLatestTag_error in Hrun as (e' & Hsplit & ->).
    exists u, e'. by repeat split.
Qed.

(** C6: on a URL without a ref parameter and without the override
    variable, when the root of the URL is found and the tag lookup fails
    or finds no tag, [addRefToModuleURL] and [rewriteTemplateURL] return
    the pointer with a nil error, leave the URL as it was and log a
    warning. *)
Theorem lookup_failure_is_not_an_error p vars st u split :
  heap st !! p = Some u →
  vars !! refVar = None →
  Query u !! refParam = None →
  terraform_SplitSourceURL c u = Ok split →
  (shell_GitLastReleaseTag c split.1 = Ok ""
   ∨ ∃ e, shell_GitLastReleaseTag c split.1 = Err e) →
  addRefToModuleURL c opts p vars st
  = (Ok p, logged (Warnf moduleWarning [AURL split.1]) st)
  ∧ rewriteTemplateURL c opts p st
    = (Ok p, logged (Warnf templateWarning [AURL split.1]) st).
Proof.
  intros Hu Hv Href Hsplit Htag.
  rewrite (addRefToModuleURL_unfold p vars st u Hu), Hv,
          (rewriteTemplateURL_unfold p st u Hu).
  unfold Get, pinLatestTag. rewrite Href, Hsplit. cbn.
  by destruct Htag as [-> | [e ->]].
Qed.

(** Without the override, the two pinning functions return the same
    result and leave the same URLs and files; their warnings differ. *)
Lemma rewriteTemplateURL_addRef_agree p vars st :
  vars !! refVar = None →
  (rewriteTemplateURL c opts p st).1 = (addRefToModuleURL c opts p vars st).1
  ∧ heap (rewriteTemplateURL c opts p st).2
    = heap (addRefToModuleURL c opts p vars st).2
  ∧ fs (rewriteTemplateURL c opts p st).2
    = fs (addRefToModuleURL c opts p vars st).2.
Proof.
  intros Hv. destruct (heap st !! p) as [u|] eqn:Hu.
  - rewrite (addRefToModuleURL_unfold p vars st u Hu), Hv,
            (rewriteTemplateURL_unfold p st u Hu).
    destruct (String.eqb _ ""); [|done]. unfold pinLatestTag.
    destruct (terraform_SplitSourceURL c u) as [split|e|]; [|done|done].
    destruct (shell_GitLastReleaseTag c split.1) as [tag|e|]; [|done|done].
    by destruct (String.eqb tag "").
  - unfold rewriteTemplateURL, addRefToModuleURL, bind, load. by rewrite Hu.
Qed.

(** C5, as amended: template resolution is module resolution without
    the transport-rewrite step and without the override. For a variable
    map without [Ref], [rewriteTemplateURL] returns the same result as
    the ref-pinning step [addRefToModuleURL] and leaves the same URLs and
    files, and the URL text that [prepareBoilerplateFiles] resolves is
    the text of [terraform.ToSourceURL] followed by that pinning step;
    [rewriteModuleURL] has no part in it. *)
Theorem rewriteTemplateURL_is_addRef_without_vars p vars st :
  vars !! refVar = None →
  ((rewriteTemplateURL c opts p st).1 = (addRefToModuleURL c opts p vars st).1
   ∧ heap (rewriteTemplateURL c opts p st).2
     = heap (addRefToModuleURL c opts p vars st).2
   ∧ fs (rewriteTemplateURL c opts p st).2
     = fs (addRefToModuleURL c opts p vars st).2)
  ∧ ∀ templateURL tempDir,
      (resolveTemplateURL c opts templateURL tempDir st).1
      = ((parsed <- wrapErr c (ToSourceURL c templateURL tempDir) ;;
          parsed <- wrapErr c (addRefToModuleURL c opts parsed vars) ;;
          String_ c parsed) st).1.
Proof.
  intros Hv. split; [by apply rewriteTemplateURL_addRef_agree|].
  intros templateURL tempDir.
  unfold resolveTemplateURL, bind.
  destruct (wrapErr c (ToSourceURL c templateURL tempDir) st)
    as [[parsed|e|] st1]; [|done|done].
  destruct (rewriteTemplateURL_addRef_agree parsed vars st1 Hv)
    as (Hres & Hheap & _).
  unfold wrapErr.
  destruct (rewriteTemplateURL c opts parsed st1) as [r1 stA].
  destruct (addRefToModuleURL c opts parsed vars st1) as [r2 stB].
  cbn [fst snd] in Hres, Hheap. subst r2.
  destruct r1 as [parsed'|e|]; [|done|done].
  unfold String_, bind, load. rewrite Hheap.
  by destruct (heap stB !! parsed').
Qed.

(** Which way the tag-lookup branch goes depends on the URL value, not on
    the state it runs in. *)
Lemma pinLatestTag_cases format p u params :
  (∃ e, ∀ st, pinLatestTag c format p u params st = (Ok p, logged e st))
  ∨ (∃ tag, tag ≠ ""
       ∧ ∀ st, pinLatestTag c format p u params st
               = (Ok p, withRawQuery p u (Encode (Add params refParam tag)) st))
  ∨ (∀ st p1 st1, pinLatestTag c format p u params st ≠ (Ok p1, st1)).
Proof.
  unfold pinLatestTag.
  destruct (terraform_SplitSourceURL c u) as [split|e|];
    [|by right; right..].
  destruct (shell_GitLastReleaseTag c split.1) as [tag|e|];
    [|by left; eexists|by right; right].
  destruct (String.eqb_spec tag "") as [->|Hne]; [by left; eexists|].
  right; left. by exists tag.
Qed.

(** C4, as amended: on a URL that carries no ref parameter, or whose
    first ref value is not empty, or when the override variable is
    passed, a second [addRefToModuleURL] with the same variables returns
    the same pointer and leaves every URL and the filesystem as the first
    left them; and a URL whose ref is not empty is returned untouched
    when no override is passed. *)
Theorem addRef_idempotent p vars st u p1 st1 :
  heap st !! p = Some u →
  is_Some (vars !! refVar) ∨ Query u !! refParam = None
    ∨ Get (Query u) refParam ≠ "" →
  addRefToModuleURL c opts p vars st = (Ok p1, st1) →
  (∃ st2, addRefToModuleURL c opts p1 vars st1 = (Ok p1, st2)
          ∧ heap st2 = heap st1 ∧ fs st2 = fs st1)
  ∧ (vars !! refVar = None → Get (Query u) refParam ≠ "" →
     addRefToModuleURL c opts p vars st = (Ok p, st)).
Proof.
  intros Hu Hcond Hrun.
  rewrite (addRefToModuleURL_unfold p vars st u Hu) in Hrun.
  destruct (vars !! refVar) as [v|] eqn:Hv.
  - (* the override was passed *)
    split; [|done]. cbn zeta in Hrun. rewrite Get_Set in Hrun.
    pose proof (Values_wf_Set _ refParam (Sprintf_s c v) (Values_wf_Query u))
      as Hwf.
    destruct (String.eqb_spec (Sprintf_s c v) "") as [Hx|Hx].
    + (* it is empty: the lookup ran *)
      destruct (pinLatestTag_cases moduleWarning p
                  (setRawQuery u (Encode (Set_ (Query u) refParam (Sprintf_s c v))))
                  (Set_ (Query u) refParam (Sprintf_s c v)))
        as [[e He]|[[tag [Htag He]]|He]].
      * rewrite He in Hrun. injection Hrun as <- <-.
        rewrite (addRefToModuleURL_unfold p vars (logged e _) _
                   (withRawQuery_lookup _ _ _ _)), Hv.
        cbn zeta. rewrite (Query_Encode _ _ Hwf), Set_Set, Get_Set, Hx.
        cbn [String.eqb]. rewrite setRawQuery_twice, <- Hx, He.
        eexists. split; [reflexivity|]. split; [|done].
        cbn. by rewrite insert_insert_eq.
      * rewrite He in Hrun. injection Hrun as <- <-.
        rewrite (addRefToModuleURL_unfold p vars _ _ (withRawQuery_lookup _ _ _ _)), Hv.
        cbn zeta. rewrite setRawQuery_twice.
        rewrite (Query_Encode _ _ (Values_wf_Add _ refParam tag Hwf)).
        rewrite Set_Add, Set_Set, Get_Set, Hx.
        cbn [String.eqb]. rewrite setRawQuery_twice, <- Hx, He.
        eexists. split; [reflexivity|]. split; [|done].
        cbn. by rewrite !insert_insert_eq.
      * by destruct (He _ _ _ Hrun).
    + (* it is not empty *)
      injection Hrun as <- <-.
      rewrite (addRefToModuleURL_unfold p vars _ _ (withRawQuery_lookup _ _ _ _)), Hv.
      cbn zeta. rewrite (Query_Encode _ _ Hwf), Set_Set, Get_Set.
      destruct (String.eqb_spec (Sprintf_s c v) "") as [|_]; [done|].
      eexists. split; [reflexivity|]. split; [|done].
      cbn. by rewrite insert_insert_eq.
  - (* no override *)
    destruct (String.eqb_spec (Get (Query u) refParam) "") as [Hx|Hx].
    + split; [|done].
      destruct Hcond as [[? [=]]|[Hnone|?]]; [|done].
      destruct (pinLatestTag_cases moduleWarning p u (Query u))
        as [[e He]|[[tag [Htag He]]|He]].
      * rewrite He in Hrun. injection Hrun as <- <-.
        rewrite (addRefToModuleURL_unfold p vars (logged e st) u Hu), Hv, Hx.
        cbn [String.eqb]. rewrite He. by eexists.
      * rewrite He in Hrun. injection Hrun as <- <-.
        rewrite (addRefToModuleURL_unfold p vars _ _ (withRawQuery_lookup _ _ _ _)), Hv.
        rewrite (Query_Encode _ _ (Values_wf_Add _ refParam tag (Values_wf_Query u))).
        rewrite (Get_Add_fresh _ _ _ Hnone).
        destruct (String.eqb_spec tag "") as [|_]; [done|]. by eexists.
      * by destruct (He _ _ _ Hrun).
    + injection Hrun as <- <-.
      assert (addRefToModuleURL c opts p vars st = (Ok p, st)) as Hsame.
      { rewrite (addRefToModuleURL_unfold p vars st u Hu), Hv.
        by destruct (String.eqb_spec (Get (Query u) refParam) ""). }
      split; [|done]. rewrite Hsame. by eexists.
Qed.

End RefPinning.

(** ** Reference pinning on concrete inputs *)

Section RefPinningExamples.
Import url scaffold fixtures.

Lemma ref_pinning_touches_only_RawQuery_witness :
  (returnsPointer 0
     (addRefToModuleURL finding options 0 ∅ (stateWith repoURL)).1
   ∧ touchesOnlyRawQuery 0 repoURL (stateWith repoURL)
       (addRefToModuleURL finding options 0 ∅ (stateWith repoURL)).2)
  ∧ (returnsPointer 0 (rewriteTemplateURL finding options 0 (stateWith repoURL)).1
     ∧ touchesOnlyRawQuery 0 repoURL (stateWith repoURL)
         (rewriteTemplateURL finding options 0 (stateWith repoURL)).2).
Proof.
  apply (ref_pinning_touches_only_RawQuery finding options 0 ∅
           (stateWith repoURL) repoURL).
  reflexivity.
Defined.

Lemma addRef_nonempty_override_wins_witness :
  ∃ st' u',
    addRefToModuleURL finding options 0 {[refVar := VString "v9.9.9"]}
      (stateWith (repoURLWith "ref=v1.0.0")) = (Ok 0, st')
    ∧ heap st' !! 0 = Some u'
    ∧ Query u' !! refParam = Some [Sprintf_s finding (VString "v9.9.9")]
    ∧ Get (Query u') refParam = Sprintf_s finding (VString "v9.9.9")
    ∧ RawQuery u'
      = Encode (Set_ (Query (repoURLWith "ref=v1.0.0")) refParam
                     (Sprintf_s finding (VString "v9.9.9"))).
Proof.
  apply (addRef_nonempty_override_wins finding options 0
           {[refVar := VString "v9.9.9"]}
           (stateWith (repoURLWith "ref=v1.0.0"))
           (repoURLWith "ref=v1.0.0") (VString "v9.9.9")).
  - reflexivity.
  - reflexivity.
  - discriminate.
Defined.

(** C3 fails for an override that is the empty string: the lookup runs
    all the same, the tag it finds is added as a second ref value, and
    the URL returned depends on what the lookup answers. *)
Lemma addRef_empty_override_counterexample :
  addRefToModuleURL finding options 0 {[refVar := VString ""]}
    (stateWith repoURL)
  = (Ok 0, stateWith (repoURLWith "ref=&ref=v1.2.0"))
  ∧ Query (repoURLWith "ref=&ref=v1.2.0") !! refParam = Some [""; "v1.2.0"]
  ∧ Query (repoURLWith "ref=&ref=v1.2.0") !! refParam
    ≠ Some [Sprintf_s finding (VString "")]
  ∧ heap (addRefToModuleURL failing options 0 {[refVar := VString ""]}
            (stateWith repoURL)).2
    = heap (stateWith (repoURLWith "ref=")).
Proof. repeat split; try (vm_compute; reflexivity). discriminate. Qed.

(** C8: with the override passed as the empty string on a URL without a
    query, the URL that [addRefToModuleURL] returns carries two values
    under [ref]; so does a URL that came with an empty ref and no
    override. *)
Theorem addRef_duplicates_ref :
  (∀ k vs, Query repoURL !! k = Some vs → length vs ≤ 1)
  ∧ addRefToModuleURL finding options 0 {[refVar := VString ""]}
      (stateWith repoURL)
    = (Ok 0, stateWith (repoURLWith "ref=&ref=v1.2.0"))
  ∧ (∀ k vs, Query (repoURLWith "ref=") !! k = Some vs → length vs ≤ 1)
  ∧ addRefToModuleURL finding options 0 ∅ (stateWith (repoURLWith "ref="))
    = (Ok 0, stateWith (repoURLWith "ref=&ref=v1.2.0"))
  ∧ length <$> Query (repoURLWith "ref=&ref=v1.2.0") !! refParam = Some 2.
Proof.
  repeat split; try (vm_compute; reflexivity).
  - intros k vs.
    replace (Query repoURL) with (∅ : Values) by (vm_compute; reflexivity).
    by rewrite lookup_empty.
  - intros k vs.
    replace (Query (repoURLWith "ref=")) with (Set_ ∅ refParam "")
      by (vm_compute; reflexivity).
    unfold Set_. destruct (decide (refParam = k)) as [<-|Hne].
    + rewrite lookup_insert_eq. by intros [= <-].
    + by rewrite lookup_insert_ne, lookup_empty.
Qed.

Lemma addRef_idempotent_witness :
  (∃ st2,
     addRefToModuleURL finding options 0 ∅
       (stateWith (repoURLWith "ref=v1.0.0")) = (Ok 0, st2)
     ∧ heap st2 = heap (stateWith (repoURLWith "ref=v1.0.0"))
     ∧ fs st2 = fs (stateWith (repoURLWith "ref=v1.0.0")))
  ∧ ((∅ : Vars) !! refVar = None →
     Get (Query (repoURLWith "ref=v1.0.0")) refParam ≠ "" →
     addRefToModuleURL finding options 0 ∅
       (stateWith (repoURLWith "ref=v1.0.0"))
     = (Ok 0, stateWith (repoURLWith "ref=v1.0.0"))).
Proof.
  apply (addRef_idempotent finding options 0 ∅
           (stateWith (repoURLWith "ref=v1.0.0")) (repoURLWith "ref=v1.0.0")
           0 (stateWith (repoURLWith "ref=v1.0.0"))).
  - reflexivity.
  - right; right. vm_compute. discriminate.
  - vm_compute. reflexivity.
Defined.

(** A URL without ref is pinned by the first run and left alone by the
    second. *)
Example addRef_twice_pins_once :
  addRefToModuleURL finding options 0 ∅ (stateWith repoURL)
  = (Ok 0, stateWith (repoURLWith "ref=v1.2.0"))
  ∧ addRefToModuleURL finding options 0 ∅
      (stateWith (repoURLWith "ref=v1.2.0"))
    = (Ok 0, stateWith (repoURLWith "ref=v1.2.0")).
Proof. split; vm_compute; reflexivity. Qed.

(** C4 fails on a URL whose ref parameter is empty: without an override
    the first run adds the tag after the empty value, the second run adds
    it once more; the URL, which carried a ref parameter, is not returned
    unchanged. *)
Lemma addRef_not_idempotent_counterexample :
  addRefToModuleURL finding options 0 ∅ (stateWith (repoURLWith "ref="))
  = (Ok 0, stateWith (repoURLWith "ref=&ref=v1.2.0"))
  ∧ addRefToModuleURL finding options 0 ∅
      (stateWith (repoURLWith "ref=&ref=v1.2.0"))
    = (Ok 0, stateWith (repoURLWith "ref=&ref=v1.2.0&ref=v1.2.0"))
  ∧ repoURLWith "ref=&ref=v1.2.0&ref=v1.2.0" ≠ repoURLWith "ref=&ref=v1.2.0"
  ∧ repoURLWith "ref=&ref=v1.2.0" ≠ repoURLWith "ref=".
Proof. repeat split; try (vm_compute; reflexivity); discriminate. Qed.

Lemma lookup_failure_is_not_an_error_witness :
  addRefToModuleURL failing options 0 ∅ (stateWith repoURL)
  = (Ok 0, logged (Warnf moduleWarning [AURL (splitSourceURL_root repoURL)])
                  (stateWith repoURL))
  ∧ rewriteTemplateURL failing options 0 (stateWith repoURL)
    = (Ok 0, logged (Warnf templateWarning [AURL (splitSourceURL_root repoURL)])
                    (stateWith repoURL)).
Proof.
  apply (lookup_failure_is_not_an_error failing options 0 ∅
           (stateWith repoURL) repoURL
           (splitSourceURL_root repoURL, "modules/foo")).
  - reflexivity.
  - reflexivity.
  - reflexivity.
  - reflexivity.
  - right. by eexists.
Defined.

Lemma rewriteTemplateURL_is_addRef_without_vars_witness :
  ((rewriteTemplateURL finding options 0 (stateWith repoURL)).1
   = (addRefToModuleURL finding options 0 ∅ (stateWith repoURL)).1
   ∧ heap (rewriteTemplateURL finding options 0 (stateWith repoURL)).2
     = heap (addRefToModuleURL finding options 0 ∅ (stateWith repoURL)).2
   ∧ fs (rewriteTemplateURL finding options 0 (stateWith repoURL)).2
     = fs (addRefToModuleURL finding options 0 ∅ (stateWith repoURL)).2)
  ∧ ∀ templateURL tempDir,
      (resolveTemplateURL finding options templateURL tempDir
         (stateWith repoURL)).1
      = ((parsed <- wrapErr finding (ToSourceURL finding templateURL tempDir) ;;
          parsed <- wrapErr finding
                      (addRefToModuleURL finding options parsed ∅) ;;
          String_ finding parsed) (stateWith repoURL)).1.
Proof.
  apply (rewriteTemplateURL_is_addRef_without_vars finding options 0 ∅
           (stateWith repoURL)).
  reflexivity.
Defined.

(** C5 fails when the override [Ref] is passed: module resolution pins
    the override, template resolution of the same URL pins the tag that
    the lookup found. *)
Lemma template_resolution_counterexample :
  (parseModuleURL finding options {[refVar := VString "v9.9.9"]}
     repoSource initial).1
  = Ok "git::https://example.com/org/repo.git//modules/foo?ref=v9.9.9"
  ∧ (resolveTemplateURL finding options repoSource "/tmp/scaffold1" initial).1
    = Ok "git::https://example.com/org/repo.git//modules/foo?ref=v1.2.0"
  ∧ "git::https://example.com/org/repo.git//modules/foo?ref=v9.9.9"
    ≠ "git::https://example.com/org/repo.git//modules/foo?ref=v1.2.0".
Proof. repeat split; try (vm_compute; reflexivity). discriminate. Qed.

End RefPinningExamples.

(** ** Variable classification: [parseVariables] *)

Section Classification.
Import scaffold fixtures.

(** The loop appends each declaration to the list its default selects. *)
Lemma classify_from required optional inputs :
  fold_left
    (λ '(requiredVariables, optionalVariables) value,
       if String.eqb (DefaultValue value) ""
       then (requiredVariables ++ [value], optionalVariables)
       else (requiredVariables, optionalVariables ++ [value]))
    inputs (required, optional)
  = (required ++ filter isRequired inputs,
     optional ++ filter (λ value, ¬ isRequired value) inputs).
Proof.
  revert required optional.
  induction inputs as [|value inputs IH]; intros required optional.
  { cbn. by rewrite !app_nil_r. }
  cbn [fold_left]. rewrite !filter_cons. unfold isRequired at 1 3.
  destruct (String.eqb_spec (DefaultValue value) "") as [E|E].
  - rewrite IH, decide_True, decide_False by auto.
    by rewrite <- app_assoc.
  - rewrite IH, decide_False, decide_True by auto.
    by rewrite <- app_assoc.
Qed.

Lemma classify_filter inputs :
  classify inputs
  = (filter isRequired inputs, filter (λ value, ¬ isRequired value) inputs).
Proof. unfold classify. by rewrite classify_from. Qed.

(** C2: whenever the parser collaborator returns declarations,
    [parseVariables] returns with a nil error, and its two lists
    partition the input: a declaration is in the required list iff its
    default value is the empty string, the lengths add up, every
    declaration is in exactly one list, each list keeps the order of the
    input, and an empty input gives two empty lists. *)
Theorem parseVariables_partitions c opts moduleDir st inputs :
  config_ParseVariables c opts moduleDir (fs st) = Ok inputs →
  ∃ required optional,
    parseVariables c opts moduleDir st = (Ok (required, optional), st)
    ∧ required = filter isRequired inputs
    ∧ optional = filter (λ value, ¬ isRequired value) inputs
    ∧ length required + length optional = length inputs
    ∧ required ++ optional ≡ₚ inputs
    ∧ (∀ value, value ∈ inputs →
         (DefaultValue value = "" ∧ value ∈ required ∧ value ∉ optional)
         ∨ (DefaultValue value ≠ "" ∧ value ∈ optional ∧ value ∉ required))
    ∧ required `sublist_of` inputs
    ∧ optional `sublist_of` inputs
    ∧ (inputs = [] → required = [] ∧ optional = []).
Proof.
  intros Hparse.
  exists (filter isRequired inputs), (filter (λ value, ¬ isRequired value) inputs).
  split.
  { unfold parseVariables, bind, wrapErr, ret.
    by rewrite Hparse, classify_filter. }
  do 2 (split; [done|]).
  pose proof (filter_app_complement isRequired inputs) as Hperm.
  split; [by rewrite <- length_app, Hperm|].
  split; [done|].
  split.
  { intros value Hin. rewrite !list_elem_of_filter.
    destruct (decide (isRequired value)) as [Hreq|Hopt].
    - left. repeat split; try done. by intros [? _].
    - right. repeat split; try done. by intros [? _]. }
  split; [apply sublist_filter|].
  split; [apply sublist_filter|].
  by intros ->.
Qed.

Lemma parseVariables_partitions_witness :
  ∃ required optional,
    parseVariables (declaring declarations (collaborators ∅ tagLookupFails))
      options "/tmp/scaffold1" initial = (Ok (required, optional), initial)
    ∧ required = filter isRequired declarations
    ∧ optional = filter (λ value, ¬ isRequired value) declarations
    ∧ length required + length optional = length declarations
    ∧ required ++ optional ≡ₚ declarations
    ∧ (∀ value, value ∈ declarations →
         (DefaultValue value = "" ∧ value ∈ required ∧ value ∉ optional)
         ∨ (DefaultValue value ≠ "" ∧ value ∈ optional ∧ value ∉ required))
    ∧ required `sublist_of` declarations
    ∧ optional `sublist_of` declarations
    ∧ (declarations = [] → required = [] ∧ optional = []).
Proof.
  apply (parseVariables_partitions
           (declaring declarations (collaborators ∅ tagLookupFails))
           options "/tmp/scaffold1" initial declarations).
  reflexivity.
Defined.

(** The scenario of the specification: [a] is required, [b] optional. *)
Example classify_a_b :
  Name <$> (classify declarations).1 = ["a"]
  ∧ Name <$> (classify declarations).2 = ["b"].
Proof. by vm_compute. Qed.

End Classification.

(** ** Transport rewrite: [rewriteModuleURL] *)

Section TransportRewrite.
Import url scaffold fixtures.
Context (c : Collaborators) (opts : TerragruntOptions).

(** C7: [rewriteModuleURL] rebuilds the URL as [user@host:path] when the
    pattern matches with scheme [https] and the variable [SourceUrlType]
    selects [git-ssh], and only then: in every other case it returns
    what [terraform.ToSourceURL] makes of the module URL as it was
    passed. *)
Theorem rewriteModuleURL_transport vars moduleURL st :
  (∀ parsedValue,
     FindStringSubmatch moduleURL = Some parsedValue →
     scheme parsedValue = "https" →
     requestedType c vars = sourceURLTypeGit →
     rewriteModuleURL c opts vars moduleURL st
     = wrapErr c (ToSourceURL c
                    (requestedUser c vars +:+ "@" +:+ host parsedValue +:+ ":"
                     +:+ GoStrings.TrimPrefix (path parsedValue) "/")
                    (WorkingDir opts)) st)
  ∧ (¬ rewriteTriggers c vars moduleURL →
     ∃ st', rewriteModuleURL c opts vars moduleURL st
            = wrapErr c (ToSourceURL c moduleURL (WorkingDir opts)) st'
            ∧ heap st' = heap st ∧ fs st' = fs st)
  ∧ (requestedType c vars = sourceURLTypeGit ↔
     ∃ value, vars !! sourceURLTypeVar = Some value
              ∧ Sprintf_s c value = sourceURLTypeGit).
Proof.
  split; [|split].
  - intros parsedValue Hmatch Hscheme Htype.
    unfold rewriteModuleURL, bind, attempt, parseURL. rewrite Hmatch.
    cbn [ret]. fold (requestedType c vars) (requestedUser c vars).
    by rewrite Hscheme, Htype.
  - intros Hnot.
    unfold rewriteModuleURL, bind, attempt, parseURL.
    destruct (FindStringSubmatch moduleURL) as [parsedValue|] eqn:Hmatch.
    + cbn [ret]. fold (requestedType c vars) (requestedUser c vars).
      destruct (String.eqb_spec (scheme parsedValue) "https") as [Hs|Hs];
        [|by exists st].
      destruct (String.eqb_spec (requestedType c vars) sourceURLTypeGit)
        as [Ht|Ht]; [|by exists st].
      destruct Hnot. by exists parsedValue.
    + cbn. by eexists.
  - unfold requestedType. split.
    + destruct (vars !! sourceURLTypeVar) as [value|]; [by exists value|done].
    + by intros [value [-> ?]].
Qed.

End TransportRewrite.

Section TransportRewriteExamples.
Import url scaffold fixtures.

(** The scenario of the specification: SSH transport is requested for an
    HTTPS module URL, and the text handed to [terraform.ToSourceURL] is
    [git@example.com:org/repo.git//modules/foo]. *)
Example rewriteModuleURL_ssh :
  (rewriteModuleURL (keepingSource finding) options
     {[sourceURLTypeVar := VString "git-ssh"]} repoSource initial).2
  = {| heap := {[0 := opaqueURL "git@example.com:org/repo.git//modules/foo"]};
       fs := fs initial; log := [] |}.
Proof. by vm_compute. Qed.

(** Without the variable, and with another scheme, the text is the module
    URL as passed. *)
Example rewriteModuleURL_default :
  (rewriteModuleURL (keepingSource finding) options ∅ repoSource initial).2
  = {| heap := {[0 := opaqueURL repoSource]}; fs := fs initial; log := [] |}
  ∧ (rewriteModuleURL (keepingSource finding) options
       {[sourceURLTypeVar := VString "git-ssh"]}
       "git::ssh://git@example.com/org/repo.git" initial).2
    = {| heap := {[0 := opaqueURL "git::ssh://git@example.com/org/repo.git"]};
         fs := fs initial; log := [] |}.
Proof. by vm_compute. Qed.

End TransportRewriteExamples.

(** ** Exit codes: [GetExitCode] *)

Section ExitCodes.
Import util.

(** Induction on error values, through the members of multierrors and
    the field of [ProcessExecutionError]. *)
Lemma error_induction (P : error → Prop) :
  (∀ msg, P (errorString msg)) →
  (∀ inner, P inner → P (Wrapped inner)) →
  (∀ status, P (ExitError status)) →
  P (ProcessExecutionError None) →
  (∀ inner, P inner → P (ProcessExecutionError (Some inner))) →
  (∀ errs, Forall P errs → P (MultiError errs)) →
  (∀ errs, Forall P errs → P (chain errs)) →
  ∀ err, P err.
Proof.
  intros Hs Hw He Hn Hp Hm Hc.
  fix IH 1. intros [msg|inner|status|[inner|]|errs|errs].
  - apply Hs.
  - apply Hw, IH.
  - apply He.
  - apply Hp, IH.
  - apply Hn.
  - apply Hm. induction errs as [|member errs IHerrs]; constructor;
      [apply IH|apply IHerrs].
  - apply Hc. induction errs as [|member errs IHerrs]; constructor;
      [apply IH|apply IHerrs].
Qed.

Lemma error_size_MultiError errs :
  error_size (MultiError errs) = S (sum_list (error_size <$> errs)).
Proof.
  cbn. f_equal. induction errs as [|member errs IH]; cbn; [done|].
  by rewrite IH.
Qed.

Lemma error_size_chain errs :
  error_size (chain errs) = S (sum_list (error_size <$> errs)).
Proof.
  cbn. f_equal. induction errs as [|member errs IH]; cbn; [done|].
  by rewrite IH.
Qed.

Lemma error_size_member member (errs : list error) :
  member ∈ errs → error_size member ≤ sum_list (error_size <$> errs).
Proof.
  induction errs as [|x errs IH]; intros Hin; [by apply elem_of_nil in Hin|].
  apply elem_of_cons in Hin as [->|Hin]; cbn; [lia|].
  specialize (IH Hin). lia.
Qed.

(** The members [errors.As] finds are parts of the error. *)
Lemma errors_As_MultiError_size err Errors member :
  errors_As_MultiError err = Some Errors →
  member ∈ Errors →
  error_size member < error_size err.
Proof.
  revert Errors member.
  induction err as [msg|inner IH|status| |inner IH|errs IH|errs IH]
    using error_induction; intros Errors member Has Hin; try done.
  - cbn in Has. specialize (IH _ _ Has Hin). cbn. lia.
  - cbn in Has. injection Has as <-. rewrite error_size_MultiError.
    pose proof (error_size_member _ _ Hin). lia.
  - rewrite error_size_chain. cbn in Has.
    enough (error_size member < sum_list (error_size <$> errs)) by lia.
    induction IH as [|x errs Hx _ IHerrs]; [done|].
    destruct (errors_As_MultiError x) as [found|] eqn:Hfound.
    + injection Has as <-. specialize (Hx _ _ eq_refl Hin). cbn. lia.
    + specialize (IHerrs Has). cbn. lia.
Qed.

(** The error behind an unwrapped [ExitStatus] is a part of the error. *)
Lemma asErrorCode_Unwrap_size err inner :
  asErrorCode (errors_Unwrap err) = Some inner →
  S (size inner) < size err.
Proof.
  destruct err as [[msg|[msg|w|status|Err|errs|errs]|status|Err|errs|errs]|];
    try done.
  - intros [= <-]. cbn. destruct Err; cbn; lia.
  - destruct errs as [|member [|member' errs]]; try done.
    intros Hcode. destruct member; try done. cbn in Hcode.
    injection Hcode as <-. cbn. destruct Err; cbn; lia.
  - by destruct errs as [|member [|member' errs]].
Qed.

Lemma firstExitCode_ext f g errs :
  (∀ member, member ∈ errs → f (Some member) = g (Some member)) →
  firstExitCode f errs = firstExitCode g errs.
Proof.
  induction errs as [|member errs IH]; intros Hfg; [done|]. cbn.
  rewrite (Hfg member) by apply list_elem_of_here.
  destruct (g (Some member)) as [exitCode [e|]]; [|done].
  apply IH. intros m Hm. by apply Hfg, list_elem_of_further.
Qed.

(** A bound above the size of the error is never reached. *)
Lemma GetExitCode_bounded_enough n m err :
  size err < n → size err < m →
  GetExitCode_bounded n err = GetExitCode_bounded m err.
Proof.
  revert m err. induction n as [|n IH]; intros m err Hn Hm; [lia|].
  destruct m as [|m]; [lia|]. cbn.
  destruct (asErrorCode (errors_Unwrap err)) as [inner|] eqn:Hcode.
  { apply asErrorCode_Unwrap_size in Hcode. apply IH; lia. }
  destruct (err ≫= errors_As_ExitError) as [status|]; [done|].
  destruct (err ≫= errors_As_MultiError) as [Errors|] eqn:Hmulti; [|done].
  rewrite (firstExitCode_ext (GetExitCode_bounded n) (GetExitCode_bounded m));
    [done|].
  intros member Hin. destruct err as [err|]; [|done]. cbn in Hmulti.
  pose proof (errors_As_MultiError_size _ _ _ Hmulti Hin). cbn in *.
  apply IH; cbn; lia.
Qed.

(** [GetExitCode] as the source has it. *)
Lemma GetExitCode_unfold err :
  GetExitCode err
  = match asErrorCode (errors_Unwrap err) with
    | Some exiterr_Err => GetExitCode exiterr_Err
    | None =>
        match err ≫= errors_As_ExitError with
        | Some status => (status, None)
        | None =>
            match err ≫= errors_As_MultiError with
            | Some Errors =>
                match firstExitCode GetExitCode Errors with
                | Some exitCode => (exitCode, None)
                | None => (0%Z, err)
                end
            | None => (0%Z, err)
            end
        end
    end.
Proof.
  unfold GetExitCode at 1. cbn [GetExitCode_bounded].
  destruct (asErrorCode (errors_Unwrap err)) as [inner|] eqn:Hcode.
  { apply asErrorCode_Unwrap_size in Hcode.
    apply GetExitCode_bounded_enough; lia. }
  destruct (err ≫= errors_As_ExitError) as [status|]; [done|].
  destruct (err ≫= errors_As_MultiError) as [Errors|] eqn:Hmulti; [|done].
  rewrite (firstExitCode_ext (GetExitCode_bounded (size err)) GetExitCode);
    [done|].
  intros member Hin. destruct err as [err|]; [|done]. cbn in Hmulti.
  pose proof (errors_As_MultiError_size _ _ _ Hmulti Hin).
  unfold GetExitCode. apply GetExitCode_bounded_enough; cbn [size]; lia.
Qed.

(** An error that [GetExitCode] returns is no larger than its input. *)
Lemma GetExitCode_error_size err :
  size (GetExitCode err).2 ≤ size err.
Proof.
  remember (size err) as n eqn:Hn. revert err Hn.
  induction n as [n IH] using lt_wf_ind. intros err ->.
  rewrite GetExitCode_unfold.
  destruct (asErrorCode (errors_Unwrap err)) as [inner|] eqn:Hcode.
  { apply asErrorCode_Unwrap_size in Hcode.
    specialize (IH (size inner) ltac:(lia) inner eq_refl). lia. }
  destruct (err ≫= errors_As_ExitError) as [status|]; [cbn; lia|].
  destruct (err ≫= errors_As_MultiError) as [Errors|]; [|done].
  destruct (firstExitCode GetExitCode Errors); [cbn; lia|done].
Qed.

(** C10, as amended: [GetExitCode] consults, in this order, the
    [ExitStatus] of the unwrapped error, whose result it returns as it
    is, an [exec.ExitError] in the tree of the error, and the members of
    a multierror, of which it returns the first exit code that comes with
    a nil error; it returns 0 with the error it was given exactly when
    the unwrapped error has no [ExitStatus], there is no [exec.ExitError]
    and no member of a multierror gives an exit code. *)
Theorem GetExitCode_returns_input (err : error) :
  (∀ exiterr_Err,
     asErrorCode (errors_Unwrap (Some err)) = Some exiterr_Err →
     GetExitCode (Some err) = GetExitCode exiterr_Err)
  ∧ (asErrorCode (errors_Unwrap (Some err)) = None →
     ∀ status, errors_As_ExitError err = Some status →
               GetExitCode (Some err) = (status, None))
  ∧ (asErrorCode (errors_Unwrap (Some err)) = None →
     errors_As_ExitError err = None →
     ∀ Errors exitCode,
       errors_As_MultiError err = Some Errors →
       firstExitCode GetExitCode Errors = Some exitCode →
       GetExitCode (Some err) = (exitCode, None))
  ∧ (GetExitCode (Some err) = (0%Z, Some err)
     ↔ asErrorCode (errors_Unwrap (Some err)) = None
       ∧ errors_As_ExitError err = None
       ∧ ∀ Errors, errors_As_MultiError err = Some Errors →
                   firstExitCode GetExitCode Errors = None).
Proof.
  rewrite (GetExitCode_unfold (Some err)). cbn [mbind option_bind].
  split; [by intros inner ->|].
  split; [by intros -> status ->|].
  split; [by intros -> -> Errors exitCode -> ->|].
  destruct (asErrorCode (errors_Unwrap (Some err))) as [inner|] eqn:Hcode.
  { (* the result of [ExitStatus] is never the error that was passed *)
    split; [|by intros [? _]].
    intros Hret. apply asErrorCode_Unwrap_size in Hcode.
    pose proof (GetExitCode_error_size inner) as Hsize.
    rewrite Hret in Hsize. cbn [snd size] in *. lia. }
  destruct (errors_As_ExitError err) as [status|].
  { split; [done|by intros (_ & ? & _)]. }
  destruct (errors_As_MultiError err) as [Errors|].
  2: { split; [|done]. intros _. by repeat split. }
  destruct (firstExitCode GetExitCode Errors) as [exitCode|] eqn:Hfirst.
  - split; [done|]. intros (_ & _ & Hnone).
    specialize (Hnone _ eq_refl). congruence.
  - split; [|done]. intros _. repeat split. by intros ? [= <-].
Qed.

(** C10 fails on a wrapped [ProcessExecutionError] whose [Err] is a plain
    error: no exit status is recovered, and the error returned is the
    plain error inside, not the error that was passed. *)
Lemma GetExitCode_counterexample :
  ¬ recoversExitStatus
      (Some (Wrapped (ProcessExecutionError (Some (errorString "boom")))))
  ∧ GetExitCode
      (Some (Wrapped (ProcessExecutionError (Some (errorString "boom")))))
    = (0%Z, Some (errorString "boom"))
  ∧ GetExitCode
      (Some (Wrapped (ProcessExecutionError (Some (errorString "boom")))))
    ≠ (0%Z, Some (Wrapped (ProcessExecutionError (Some (errorString "boom"))))).
Proof. repeat split; by vm_compute. Qed.

(** Exit codes that are recovered: through [ExitStatus], from an
    [exec.ExitError], and from the members of a multierror. *)
Example GetExitCode_recovered :
  GetExitCode (Some (Wrapped (ProcessExecutionError (Some (ExitError 3)))))
  = (3%Z, None)
  ∧ GetExitCode (Some (Wrapped (ExitError 2))) = (2%Z, None)
  ∧ GetExitCode
      (Some (MultiError
               [errorString "a";
                Wrapped (ProcessExecutionError (Some (ExitError 5)));
                errorString "b"]))
    = (5%Z, None)
  ∧ GetExitCode (Some (errorString "a")) = (0%Z, Some (errorString "a")).
Proof. by vm_compute. Qed.

End ExitCodes.

(** ** Scratch directories: [Run] and its deferred cleanup *)

Section Cleanup.
Import url scaffold fixtures.

(** The only directory [Run] ever registers in [dirsToClean] is the one
    it made for the module. *)
Lemma Run_body_dirsToClean c opts moduleURL templateURL st dir :
  dir ∈ (Run_body c opts moduleURL templateURL st).1 →
  (Run_body c opts moduleURL templateURL st).1 = [dir]
  ∧ ∃ fs0, os_MkdirTemp_name c "scaffold" fs0 = Ok dir.
Proof.
  unfold Run_body.
  destruct (util_IsDirectoryEmpty c (WorkingDir opts) (fs st)) as [empty|e|];
    [|by intros ?%elem_of_nil..].
  destruct (String.eqb moduleURL ""); [by intros ?%elem_of_nil|].
  unfold wrapErr, os_MkdirTemp.
  match goal with
  | |- context [os_MkdirTemp_name c "scaffold" ?f] =>
      destruct (os_MkdirTemp_name c "scaffold" f) as [tempDir|e|] eqn:Hname
  end; [|by intros ?%elem_of_nil..].
  cbn [fst app].
  intros ->%list_elem_of_singleton. split; [done|]. by eexists.
Qed.

(** The deferred cleanup removes what is registered: when [os.RemoveAll]
    does not fail, no registered directory exists after [Run], whichever
    way [Run] returns. *)
Lemma Run_removes_registered c opts moduleURL templateURL st dir :
  (∀ path fs0, os_RemoveAll_error c path fs0 = None) →
  dir ∈ (Run_body c opts moduleURL templateURL st).1 →
  dir ∉ fs_dirs (fs (Run c opts moduleURL templateURL st).2).
Proof.
  intros Hrm Hin. unfold Run.
  destruct (Run_body_dirsToClean _ _ _ _ _ _ Hin) as [Hdirs _].
  destruct (Run_body c opts moduleURL templateURL st) as [dirs [r st']].
  cbn [fst] in Hdirs. subst dirs. cbn [snd cleanTempDirs fold_left].
  unfold os_RemoveAll. rewrite Hrm. cbn [snd fs fs_dirs].
  rewrite elem_of_filter. intros [Hnot _]. apply Hnot. by left.
Qed.

(** C1: directories that [prepareBoilerplateFiles] creates outlive the
    run. Without a template URL the run succeeds, the module directory
    [/tmp/scaffold1] is gone and the default-template directory
    [/tmp/boilerplate1], which did not exist before, is still there; with
    a template URL the same holds of the template download directory
    [/tmp/template1]; and so it is when the run fails at rendering. *)
Theorem Run_leaves_template_directories :
  fs_dirs (fs initial) = {["/work"]}
  ∧ (Run finding options repoSource "" initial).1 = Ok ()
  ∧ fs_dirs (fs (Run finding options repoSource "" initial).2)
    = {["/work"; "/tmp/boilerplate1"]}
  ∧ (Run finding options repoSource repoSource initial).1 = Ok ()
  ∧ fs_dirs (fs (Run finding options repoSource repoSource initial).2)
    = {["/work"; "/tmp/template1"]}
  ∧ (Run (renderFailing finding) options repoSource "" initial).1
    = Err (Wrapped (errorString "template: render failed"))
  ∧ fs_dirs (fs (Run (renderFailing finding) options repoSource "" initial).2)
    = {["/work"; "/tmp/boilerplate1"]}.
Proof. repeat split; vm_compute; reflexivity. Qed.

End Cleanup.

(** ** More on exit codes *)

Section MoreExitCodes.
Import util.

(** The error whose [ExitStatus] is consulted sits right below a wrapper
    or is the only member of a multierror. *)
Lemma asErrorCode_Unwrap_shape err exiterr_Err :
  asErrorCode (errors_Unwrap (Some err)) = Some exiterr_Err →
  err = Wrapped (ProcessExecutionError exiterr_Err)
  ∨ err = MultiError [ProcessExecutionError exiterr_Err].
Proof.
  destruct err as [msg|[msg|w|status|Err|errs|errs]|status|Err|errs|errs];
    try done.
  - intros [= <-]. by left.
  - destruct errs as [|member [|member' errs]]; try done.
    destruct member; try done. intros [= <-]. by right.
  - by destruct errs as [|member [|member' errs]].
Qed.

(** X1: a non-nil error from [GetExitCode] always comes with the exit
    code 0. *)
Theorem GetExitCode_error_means_zero (err : option error) :
  (GetExitCode err).2 = None ∨ (GetExitCode err).1 = 0%Z.
Proof.
  remember (size err) as n eqn:Hn. revert err Hn.
  induction n as [n IH] using lt_wf_ind. intros err ->.
  rewrite GetExitCode_unfold.
  destruct (asErrorCode (errors_Unwrap err)) as [inner|] eqn:Hcode.
  { apply asErrorCode_Unwrap_size in Hcode.
    apply (IH (size inner)); [lia|done]. }
  destruct (err ≫= errors_As_ExitError) as [status|]; [by left|].
  destruct (err ≫= errors_As_MultiError) as [Errors|]; [|by right].
  destruct (firstExitCode GetExitCode Errors); [by left|by right].
Qed.

(** X2: the error that [GetExitCode] returns is final: [GetExitCode] of it
    returns it again, with 0. *)
Theorem GetExitCode_returned_error_is_final (err : option error) :
  GetExitCode (GetExitCode err).2 = (0%Z, (GetExitCode err).2).
Proof.
  remember (size err) as n eqn:Hn. revert err Hn.
  induction n as [n IH] using lt_wf_ind. intros err ->.
  pose proof (GetExitCode_unfold err) as Hunfold.
  destruct (asErrorCode (errors_Unwrap err)) as [inner|] eqn:Hcode.
  { rewrite Hunfold. apply asErrorCode_Unwrap_size in Hcode.
    apply (IH (size inner)); [lia|done]. }
  destruct (err ≫= errors_As_ExitError) as [status|];
    [by rewrite Hunfold|].
  destruct (err ≫= errors_As_MultiError) as [Errors|].
  - destruct (firstExitCode GetExitCode Errors); [by rewrite Hunfold|].
    rewrite Hunfold. cbn [snd]. exact Hunfold.
  - rewrite Hunfold. cbn [snd]. exact Hunfold.
Qed.

Lemma occursIn_refl err : occursIn err err.
Proof. destruct err; by left. Qed.

(** X3: the error that [GetExitCode] returns is the error it was given or
    a part of it. *)
Theorem GetExitCode_returns_part_of_input (err : error) :
  match (GetExitCode (Some err)).2 with
  | Some e => occursIn e err
  | None => True
  end.
Proof.
  remember (error_size err) as n eqn:Hn. revert err Hn.
  induction n as [n IH] using lt_wf_ind. intros err ->.
  rewrite GetExitCode_unfold.
  destruct (asErrorCode (errors_Unwrap (Some err))) as [inner|] eqn:Hcode.
  { pose proof (asErrorCode_Unwrap_size _ _ Hcode) as Hsize.
    apply asErrorCode_Unwrap_shape in Hcode.
    destruct inner as [inner|]; [|done].
    specialize (IH (error_size inner) ltac:(cbn in Hsize; lia) inner eq_refl).
    destruct (GetExitCode (Some inner)).2 as [e|]; [|done].
    destruct Hcode as [-> | ->]; right; cbn; [by right|by left; right]. }
  cbn [mbind option_bind].
  destruct (errors_As_ExitError err) as [status|]; [done|].
  destruct (errors_As_MultiError err) as [Errors|];
    [|apply occursIn_refl].
  destruct (firstExitCode GetExitCode Errors); [done|apply occursIn_refl].
Qed.

Lemma errors_As_ExitError_wrapN n err :
  errors_As_ExitError (wrapN n err) = errors_As_ExitError err.
Proof. induction n as [|n IH]; [done|]. cbn. exact IH. Qed.

Lemma errors_As_MultiError_wrapN n err :
  errors_As_MultiError (wrapN n err) = errors_As_MultiError err.
Proof. induction n as [|n IH]; [done|]. cbn. exact IH. Qed.

(** X4: [GetExitCode] asks the [ExitStatus] of a [ProcessExecutionError]
    only when it sits below exactly one wrapper: then the result is that
    of its [Err]; passed as it is, or below two or more wrappers, it
    comes back as the error, with 0. *)
Theorem ExitStatus_consulted_one_level_down n (Err : option error) :
  GetExitCode (Some (wrapN n (ProcessExecutionError Err)))
  = if Nat.eqb n 1 then GetExitCode Err
    else (0%Z, Some (wrapN n (ProcessExecutionError Err))).
Proof.
  rewrite GetExitCode_unfold. cbn [mbind option_bind].
  rewrite errors_As_ExitError_wrapN, errors_As_MultiError_wrapN.
  destruct n as [|[|n]]; done.
Qed.

(** X5: an [exec.ExitError] gives its exit status below any number of
    wrappers. *)
Theorem ExitError_found_at_any_depth n (status : Z) :
  GetExitCode (Some (wrapN n (ExitError status))) = (status, None).
Proof.
  rewrite GetExitCode_unfold. cbn [mbind option_bind].
  rewrite errors_As_ExitError_wrapN.
  destruct n as [|[|n]]; done.
Qed.

(** X6: a command that [IsCommandExecutable] accepts has the exit code 0
    for [GetExitCode]. *)
Theorem IsCommandExecutable_exit_code_zero (runErr : option error) :
  IsCommandExecutable runErr = true →
  GetExitCode runErr = (0%Z, None).
Proof.
  destruct runErr as [err|]; [|done]. unfold IsCommandExecutable.
  destruct (errors_As_ExitError err) as [exitCode|] eqn:Has; [|done].
  intros ->%Z.eqb_eq. rewrite GetExitCode_unfold.
  destruct (asErrorCode (errors_Unwrap (Some err))) as [inner|] eqn:Hcode.
  { by apply asErrorCode_Unwrap_shape in Hcode as [-> | ->]. }
  cbn [mbind option_bind]. by rewrite Has.
Qed.

Lemma IsCommandExecutable_exit_code_zero_witness :
  GetExitCode (Some (Wrapped (ExitError 0))) = (0%Z, None).
Proof.
  apply (IsCommandExecutable_exit_code_zero (Some (Wrapped (ExitError 0)))).
  reflexivity.
Defined.

End MoreExitCodes.

(** ** The generic [Unwrap] *)

Section GenericUnwrap.
Import util.
Context {V : Type} (assert : error → option V) (zero : V).

(** What [errors.As] does not find in an error it does not find in what
    [errors.Unwrap] makes of it. *)
Lemma errors_As_Unwrap_None err next :
  errors_As assert err = None →
  errors_Unwrap (Some err) = Some next →
  errors_As assert next = None.
Proof.
  destruct err as [msg|inner|status|Err|errs|errs]; try done.
  - cbn. destruct (assert (Wrapped inner)); [done|]. by intros ? [= <-].
  - destruct errs as [|a [|b errs]]; [done| |].
    + cbn. destruct (assert (MultiError [a])); [done|]. by intros ? [= <-].
    + cbn. destruct (assert (MultiError (a :: b :: errs))); [done|].
      intros Has [= <-]. cbn.
      by destruct (assert (chain (a :: b :: errs))).
  - destruct errs as [|a [|b errs]]; [done|done|].
    cbn. destruct (assert (chain (a :: b :: errs))); [done|].
    destruct (errors_As assert a); [done|].
    destruct (assert (chain (b :: errs))) eqn:Hb; [done|].
    intros Has [= <-]. cbn. by rewrite Hb.
Qed.

Lemma Unwrap_loop_None rounds err :
  err ≫= errors_As assert = None →
  Unwrap_loop assert zero rounds err = zero.
Proof.
  revert err. induction rounds as [|rounds IH]; intros err Has; [done|].
  cbn [Unwrap_loop]. rewrite Has.
  destruct (errors_Unwrap err) as [next|] eqn:Hnext; [|done].
  apply IH. destruct err as [err|]; [|done]. cbn in Has |- *.
  by apply (errors_As_Unwrap_None err).
Qed.

(** X7: [Unwrap] returns what the first [errors.As] finds, and the zero
    value when that finds nothing: the further rounds of its loop never
    find anything. *)
Theorem Unwrap_is_errors_As (err : option error) :
  Unwrap assert zero err = default zero (err ≫= errors_As assert).
Proof.
  unfold Unwrap. destruct (err ≫= errors_As assert) as [v|] eqn:Has.
  - cbn [Unwrap_loop]. by rewrite Has.
  - by apply Unwrap_loop_None.
Qed.

End GenericUnwrap.

Section GenericUnwrapExamples.
Import util.

Lemma errors_As_assertExitError_chain errs :
  Forall (λ err, errors_As assertExitError err = errors_As_ExitError err) errs →
  errors_As assertExitError (chain errs) = errors_As_ExitError (chain errs).
Proof.
  induction 1 as [|x l Hx Hl IHl]; [done|].
  cbn in IHl |- *. rewrite Hx. destruct (errors_As_ExitError x); [done|].
  destruct l as [|y l]; [done|]. exact IHl.
Qed.

(** [errors.As] with the assertion to [*exec.ExitError] is the search
    that [GetExitCode] makes. *)
Lemma errors_As_assertExitError err :
  errors_As assertExitError err = errors_As_ExitError err.
Proof.
  induction err as [msg|inner IH|status| |inner IH|errs IH|errs IH]
    using error_induction; try done.
  - destruct errs as [|a [|b errs]]; [done| |].
    + apply Forall_cons in IH as [Ha _]. cbn. rewrite Ha.
      by destruct (errors_As_ExitError a).
    + exact (errors_As_assertExitError_chain _ IH).
  - by apply errors_As_assertExitError_chain.
Qed.

(** A process error is found below a wrapper and among the members of a
    multierror; without one the result is the zero value. *)
Example Unwrap_ProcessExecutionError :
  Unwrap assertProcessExecutionError None
    (Some (Wrapped (ProcessExecutionError (Some (ExitError 1)))))
  = Some (ExitError 1)
  ∧ Unwrap assertProcessExecutionError None
      (Some (MultiError [errorString "a";
                         ProcessExecutionError (Some (ExitError 2))]))
    = Some (ExitError 2)
  ∧ Unwrap assertProcessExecutionError None (Some (errorString "a")) = None.
Proof. by vm_compute. Qed.

End GenericUnwrapExamples.

(** ** The pattern of module URLs: [parseURL] *)

Section ModuleURLPattern.
Import url scaffold fixtures GoStrings.

Lemma span_Contains sep s :
  Contains (span (λ a, negb (Ascii.eqb a sep)) s).1 sep = false.
Proof.
  induction s as [|a s IH]; [done|]. cbn.
  destruct (Ascii.eqb a sep) eqn:Ha; [done|]. cbn.
  destruct (span _ s) as [taken rest]. cbn in *. by rewrite Ha, IH.
Qed.

Lemma span_until sep taken rest :
  Contains taken sep = false →
  span (λ a, negb (Ascii.eqb a sep)) (taken +:+ String sep rest)
  = (taken, String sep rest).
Proof.
  induction taken as [|a taken IH]; intros Hno.
  - rewrite append_nil. cbn. by rewrite Ascii.eqb_refl.
  - rewrite append_cons. cbn in *.
    apply orb_false_iff in Hno as [Ha Hno]. by rewrite Ha, (IH Hno).
Qed.

Lemma span_all sep s :
  Contains s sep = false → span (λ a, negb (Ascii.eqb a sep)) s = (s, "").
Proof.
  induction s as [|a s IH]; intros Hno; [done|]. cbn in *.
  apply orb_false_iff in Hno as [Ha Hno]. by rewrite Ha, (IH Hno).
Qed.

Lemma stripPrefix_app prefix s : stripPrefix prefix (prefix +:+ s) = Some s.
Proof.
  induction prefix as [|a prefix IH]; [done|].
  rewrite append_cons. cbn. by rewrite Ascii.eqb_refl.
Qed.

Lemma substring_all s : String.substring 0 (String.length s) s = s.
Proof. induction s as [|a s IH]; [done|]. cbn. by rewrite IH. Qed.

Lemma TrimPrefix_slash rest : TrimPrefix (String "/" rest) "/" = rest.
Proof.
  unfold TrimPrefix. cbn. rewrite Nat.sub_0_r.
  destruct rest; [done|]. apply (substring_all (String _ _)).
Qed.

Lemma matchAfterVCS_parts s m : matchAfterVCS s = Some m → wellFormedParts m.
Proof.
  unfold matchAfterVCS.
  destruct (stripPrefix "::" s) as [s1|]; [|done].
  pose proof (span_Contains ":" s1) as Hsch.
  destruct (span _ s1) as [sch rest1].
  destruct (String.eqb_spec sch "") as [|Hsch0]; [done|].
  destruct (stripPrefix "://" rest1) as [rest2|]; [|done].
  pose proof (span_Contains "/" rest2) as Hhost.
  destruct (span _ rest2) as [h rest3].
  destruct (String.eqb_spec h "") as [|Hh0]; [done|].
  destruct rest3 as [|a rest3]; [done|].
  destruct (Ascii.eqb_spec a "/") as [->|Hne].
  2: { by destruct a as [[] [] [] [] [] [] [] []]. }
  intros [= <-]. cbn [scheme host path].
  pose proof (span_Contains "010" (String "/" rest3)) as Hpath.
  repeat split; try done.
  cbn in Hpath |- *. destruct (span _ rest3) as [taken rest4].
  cbn. by rewrite TrimPrefix_slash.
Qed.

Lemma matchHere_parts s m :
  matchHere s = Some m →
  ∃ vcs rest, vcs ∈ forcedGetters ∧ stripPrefix vcs s = Some rest
              ∧ matchAfterVCS rest = Some m.
Proof.
  unfold matchHere, forcedGetters. cbv zeta.
  destruct (stripPrefix "git" s) as [r1|] eqn:H1.
  { destruct (matchAfterVCS r1) as [m1|] eqn:M1.
    - intros [= <-]. exists "git", r1. set_solver.
    - revert H1 M1. clear. intros H1 M1.
      destruct (stripPrefix "hg" s) as [r2|] eqn:H2.
      { destruct (matchAfterVCS r2) as [m2|] eqn:M2.
        - intros [= <-]. exists "hg", r2. set_solver.
        - destruct (stripPrefix "s3" s) as [r3|] eqn:H3.
          { destruct (matchAfterVCS r3) as [m3|] eqn:M3.
            - intros [= <-]. exists "s3", r3. set_solver.
            - destruct (stripPrefix "gcs" s) as [r4|] eqn:H4; [|done].
              intros M4. exists "gcs", r4. set_solver. }
          destruct (stripPrefix "gcs" s) as [r4|] eqn:H4; [|done].
          intros M4. exists "gcs", r4. set_solver. }
      destruct (stripPrefix "s3" s) as [r3|] eqn:H3.
      { destruct (matchAfterVCS r3) as [m3|] eqn:M3.
        - intros [= <-]. exists "s3", r3. set_solver.
        - destruct (stripPrefix "gcs" s) as [r4|] eqn:H4; [|done].
          intros M4. exists "gcs", r4. set_solver. }
      destruct (stripPrefix "gcs" s) as [r4|] eqn:H4; [|done].
      intros M4. exists "gcs", r4. set_solver. }
  destruct (stripPrefix "hg" s) as [r2|] eqn:H2.
  { destruct (matchAfterVCS r2) as [m2|] eqn:M2.
    - intros [= <-]. exists "hg", r2. set_solver.
    - destruct (stripPrefix "s3" s) as [r3|] eqn:H3.
      { destruct (matchAfterVCS r3) as [m3|] eqn:M3.
        - intros [= <-]. exists "s3", r3. set_solver.
        - destruct (stripPrefix "gcs" s) as [r4|] eqn:H4; [|done].
          intros M4. exists "gcs", r4. set_solver. }
      destruct (stripPrefix "gcs" s) as [r4|] eqn:H4; [|done].
      intros M4. exists "gcs", r4. set_solver. }
  destruct (stripPrefix "s3" s) as [r3|] eqn:H3.
  { destruct (matchAfterVCS r3) as [m3|] eqn:M3.
    - intros [= <-]. exists "s3", r3. set_solver.
    - destruct (stripPrefix "gcs" s) as [r4|] eqn:H4; [|done].
      intros M4. exists "gcs", r4. set_solver. }
  destruct (stripPrefix "gcs" s) as [r4|] eqn:H4; [|done].
  intros M4. exists "gcs", r4. set_solver.
Qed.

Lemma FindStringSubmatch_matchHere s m :
  FindStringSubmatch s = Some m →
  ∃ before from, s = before +:+ from ∧ matchHere from = Some m.
Proof.
  induction s as [|a s IH]; cbn [FindStringSubmatch].
  - destruct (matchHere "") as [m0|] eqn:H0; [|done].
    intros [= <-]. by exists "", "".
  - destruct (matchHere (String a s)) as [m0|] eqn:H0.
    + intros [= <-]. by exists "", (String a s).
    + intros (before & from & -> & Hm)%IH.
      by exists (String a before), from.
Qed.

Lemma stripPrefix_Some prefix s rest :
  stripPrefix prefix s = Some rest → s = prefix +:+ rest.
Proof.
  revert s. induction prefix as [|a prefix IH]; intros s; cbn.
  - by intros [= ->].
  - destruct s as [|b s]; [done|].
    destruct (Ascii.eqb_spec a b) as [->|]; [|done].
    intros ->%IH. by rewrite append_cons.
Qed.

Lemma span_app keep s : s = (span keep s).1 +:+ (span keep s).2.
Proof.
  induction s as [|a s IH]; [done|]. cbn.
  destruct (keep a); [|done]. destruct (span keep s) as [taken rest].
  cbn in *. by rewrite append_cons, <- IH.
Qed.

(** A match of [matchAfterVCS] is a prefix of the text, part by part. *)
Lemma matchAfterVCS_text s m :
  matchAfterVCS s = Some m →
  ∃ after, s = "::" +:+ scheme m +:+ "://" +:+ host m +:+ path m +:+ after.
Proof.
  unfold matchAfterVCS.
  destruct (stripPrefix "::" s) as [s1|] eqn:H1; [|done].
  apply stripPrefix_Some in H1 as ->.
  pose proof (span_app (λ a, negb (Ascii.eqb a ":")) s1) as Hs1.
  destruct (span _ s1) as [sch rest1]. cbn [fst snd] in Hs1.
  destruct (String.eqb sch ""); [done|].
  destruct (stripPrefix "://" rest1) as [rest2|] eqn:H2; [|done].
  apply stripPrefix_Some in H2 as ->.
  pose proof (span_app (λ a, negb (Ascii.eqb a "/")) rest2) as Hs2.
  destruct (span _ rest2) as [h rest3]. cbn [fst snd] in Hs2.
  destruct (String.eqb h ""); [done|].
  destruct rest3 as [|a rest3]; [done|].
  destruct (Ascii.eqb_spec a "/") as [->|Hne].
  2: { by destruct a as [[] [] [] [] [] [] [] []]. }
  pose proof (span_app (λ a, negb (Ascii.eqb a "010")) (String "/" rest3))
    as Hs3.
  destruct (span _ (String "/" rest3)) as [p after]. cbn [fst snd] in Hs3.
  intros [= <-]. cbn [scheme host path].
  exists after. by rewrite <- Hs3, <- Hs2, <- Hs1.
Qed.

(** X8: when [parseURL] succeeds it logs nothing, the scheme is not empty
    and has no colon, the host is not empty and has no slash, the path
    begins with the one slash that the rewrite trims and ends before the
    first line feed, and the module URL reads: some text, a forced
    getter, two colons, the scheme, [://], the host, the path, the rest. *)
Theorem parseURL_parts opts moduleURL st parsed st' :
  parseURL opts moduleURL st = (Ok parsed, st') →
  st' = st
  ∧ wellFormedParts parsed
  ∧ ∃ before vcs after,
      vcs ∈ forcedGetters
      ∧ moduleURL = before +:+ vcs +:+ "::" +:+ scheme parsed +:+ "://"
                    +:+ host parsed +:+ path parsed +:+ after.
Proof.
  unfold parseURL.
  destruct (FindStringSubmatch moduleURL) as [m|] eqn:Hfind; [|done].
  intros [= <- <-]. split; [done|].
  apply FindStringSubmatch_matchHere in Hfind as (before & from & -> & Hhere).
  apply matchHere_parts in Hhere as (vcs & rest & Hvcs & Hstrip & Hafter).
  split; [by eapply matchAfterVCS_parts|].
  apply stripPrefix_Some in Hstrip as ->.
  apply matchAfterVCS_text in Hafter as [after ->].
  by exists before, vcs, after.
Qed.

Lemma parseURL_parts_witness :
  initial = initial
  ∧ wellFormedParts
      {| scheme := "https"; host := "example.com";
         path := "/org/repo.git//modules/foo" |}
  ∧ ∃ before vcs after,
      vcs ∈ forcedGetters
      ∧ repoSource = before +:+ vcs +:+ "::" +:+ "https" +:+ "://"
                     +:+ "example.com" +:+ "/org/repo.git//modules/foo"
                     +:+ after.
Proof.
  apply (parseURL_parts options repoSource initial
           {| scheme := "https"; host := "example.com";
              path := "/org/repo.git//modules/foo" |} initial).
  reflexivity.
Defined.

(** The pattern matches a text that is a forced getter, two colons, a
    scheme without colon, [://], a host without slash, a slash and a rest
    without line feed. *)
Lemma FindStringSubmatch_accepts vcs sch h rest :
  vcs ∈ forcedGetters →
  sch ≠ "" → Contains sch ":" = false →
  h ≠ "" → Contains h "/" = false →
  Contains rest "010" = false →
  FindStringSubmatch (vcs +:+ "::" +:+ sch +:+ "://" +:+ h +:+ "/" +:+ rest)
  = Some {| scheme := sch; host := h; path := "/" +:+ rest |}.
Proof.
  intros Hvcs Hsch0 Hsch Hh0 Hh Hrest.
  assert (matchAfterVCS ("::" +:+ sch +:+ "://" +:+ h +:+ "/" +:+ rest)
          = Some {| scheme := sch; host := h; path := "/" +:+ rest |})
    as Hafter.
  { unfold matchAfterVCS. rewrite stripPrefix_app.
    change (sch +:+ "://" +:+ h +:+ "/" +:+ rest)
      with (sch +:+ String ":" ("//" +:+ h +:+ String "/" rest)).
    rewrite (span_until ":" sch ("//" +:+ h +:+ String "/" rest) Hsch).
    destruct (String.eqb_spec sch "") as [|_]; [done|].
    change (String ":" ("//" +:+ h +:+ String "/" rest))
      with ("://" +:+ h +:+ String "/" rest).
    rewrite (stripPrefix_app "://").
    rewrite (span_until "/" h rest Hh).
    destruct (String.eqb_spec h "") as [|_]; [done|].
    rewrite (span_all "010" (String "/" rest)); [done|].
    cbn. exact Hrest. }
  assert (matchHere (vcs +:+ "::" +:+ sch +:+ "://" +:+ h +:+ "/" +:+ rest)
          = Some {| scheme := sch; host := h; path := "/" +:+ rest |})
    as Hhere.
  { unfold matchHere, forcedGetters in *. cbv zeta.
    repeat (apply elem_of_cons in Hvcs as [->|Hvcs]);
      [| | | |by apply elem_of_nil in Hvcs].
    - by rewrite (stripPrefix_app "git"), Hafter.
    - change (stripPrefix "git" ("hg" +:+ ?x)) with (@None string).
      by rewrite (stripPrefix_app "hg"), Hafter.
    - change (stripPrefix "git" ("s3" +:+ ?x)) with (@None string).
      change (stripPrefix "hg" ("s3" +:+ ?x)) with (@None string).
      by rewrite (stripPrefix_app "s3"), Hafter.
    - change (stripPrefix "git" ("gcs" +:+ ?x)) with (@None string).
      change (stripPrefix "hg" ("gcs" +:+ ?x)) with (@None string).
      change (stripPrefix "s3" ("gcs" +:+ ?x)) with (@None string).
      by rewrite (stripPrefix_app "gcs"), Hafter. }
  destruct vcs as [|a vcs];
    [by repeat (apply elem_of_cons in Hvcs as [?|Hvcs]);
        try apply elem_of_nil in Hvcs|].
  rewrite append_cons in Hhere |- *. cbn [FindStringSubmatch].
  by rewrite Hhere.
Qed.


(** X9: [parseURL] accepts every text made of a forced getter, two
    colons, a scheme without colon, [://], a host without slash, a slash
    and a rest without line feed, and returns these parts. *)
Theorem parseURL_accepts opts st vcs sch h rest :
  vcs ∈ forcedGetters →
  sch ≠ "" → Contains sch ":" = false →
  h ≠ "" → Contains h "/" = false →
  Contains rest "010" = false →
  parseURL opts (vcs +:+ "::" +:+ sch +:+ "://" +:+ h +:+ "/" +:+ rest) st
  = (Ok {| scheme := sch; host := h; path := "/" +:+ rest |}, st).
Proof.
  intros Hvcs Hsch0 Hsch Hh0 Hh Hrest. unfold parseURL.
  by rewrite FindStringSubmatch_accepts.
Qed.

Lemma parseURL_accepts_witness :
  parseURL options
    ("git" +:+ "::" +:+ "https" +:+ "://" +:+ "example.com" +:+ "/"
     +:+ "org/repo.git//modules/foo") initial
  = (Ok {| scheme := "https"; host := "example.com";
           path := "/" +:+ "org/repo.git//modules/foo" |}, initial).
Proof.
  apply (parseURL_accepts options initial "git" "https" "example.com"
           "org/repo.git//modules/foo").
  - apply list_elem_of_here.
  - discriminate.
  - reflexivity.
  - discriminate.
  - reflexivity.
  - reflexivity.
Defined.

End ModuleURLPattern.

Section HttpsToSsh.
Import url scaffold GoStrings.
Context (c : Collaborators) (opts : TerragruntOptions).

(** X10: with [SourceUrlType] set to [git-ssh], a module URL of the form
    forced getter, [::https://], host, slash, rest is handed to
    [terraform.ToSourceURL] as [user@host:rest]: the forced getter and
    the scheme are dropped, the slash after the host becomes a colon, and
    nothing is logged. *)
Theorem rewriteModuleURL_https_to_ssh vars st vcs h rest :
  vcs ∈ forcedGetters →
  h ≠ "" → Contains h "/" = false →
  Contains rest "010" = false →
  requestedType c vars = sourceURLTypeGit →
  rewriteModuleURL c opts vars
    (vcs +:+ "::" +:+ "https" +:+ "://" +:+ h +:+ "/" +:+ rest) st
  = wrapErr c (ToSourceURL c (requestedUser c vars +:+ "@" +:+ h +:+ ":" +:+ rest)
                 (WorkingDir opts)) st.
Proof.
  intros Hvcs Hh0 Hh Hrest Htype.
  unfold rewriteModuleURL, bind, attempt, parseURL.
  rewrite (FindStringSubmatch_accepts vcs "https" h rest) by done.
  cbn [ret scheme host path String.eqb Ascii.eqb Bool.eqb andb].
  fold (requestedType c vars) (requestedUser c vars). rewrite Htype.
  change ("/" +:+ rest) with (String "/" rest).
  by rewrite TrimPrefix_slash.
Qed.

End HttpsToSsh.

Section HttpsToSshExamples.
Import url scaffold fixtures GoStrings.

Lemma rewriteModuleURL_https_to_ssh_witness :
  rewriteModuleURL (keepingSource finding) options
    {[sourceURLTypeVar := VString "git-ssh"]}
    ("git" +:+ "::" +:+ "https" +:+ "://" +:+ "example.com" +:+ "/"
     +:+ "org/repo.git//modules/foo") initial
  = wrapErr (keepingSource finding)
      (ToSourceURL (keepingSource finding)
         (requestedUser (keepingSource finding)
            {[sourceURLTypeVar := VString "git-ssh"]}
          +:+ "@" +:+ "example.com" +:+ ":" +:+ "org/repo.git//modules/foo")
         (WorkingDir options)) initial.
Proof.
  apply (rewriteModuleURL_https_to_ssh (keepingSource finding) options
           {[sourceURLTypeVar := VString "git-ssh"]} initial "git"
           "example.com" "org/repo.git//modules/foo").
  - apply list_elem_of_here.
  - discriminate.
  - reflexivity.
  - reflexivity.
  - reflexivity.
Defined.

(** The URL that this rewrite allocates. *)
Example https_to_ssh_text :
  (heap (rewriteModuleURL (keepingSource finding) options
           {[sourceURLTypeVar := VString "git-ssh"]} repoSource initial).2
     !! 0)
  = Some (opaqueURL "git@example.com:org/repo.git//modules/foo").
Proof. by vm_compute. Qed.

End HttpsToSshExamples.

(** ** More on reference pinning *)

Section MoreRefPinning.
Import url scaffold fixtures.
Context (c : Collaborators) (opts : TerragruntOptions).

(** X11: on a URL without ref parameter and without override, when the
    lookup finds a tag, both pinning functions return the pointer with a
    nil error and log nothing, and the query of the URL is then the query
    it had with the tag as the one value of [ref]: every other parameter
    keeps its values. *)
Theorem lookup_pins_found_tag p vars st u split tag :
  heap st !! p = Some u →
  vars !! refVar = None →
  Query u !! refParam = None →
  terraform_SplitSourceURL c u = Ok split →
  shell_GitLastReleaseTag c split.1 = Ok tag →
  tag ≠ "" →
  addRefToModuleURL c opts p vars st
  = (Ok p, withRawQuery p u (Encode (Add (Query u) refParam tag)) st)
  ∧ rewriteTemplateURL c opts p st
    = (Ok p, withRawQuery p u (Encode (Add (Query u) refParam tag)) st)
  ∧ Query (setRawQuery u (Encode (Add (Query u) refParam tag)))
    = <[refParam := [tag]]> (Query u).
Proof.
  intros Hu Hv Href Hsplit Htag Hne.
  rewrite (addRefToModuleURL_unfold c opts p vars st u Hu), Hv,
          (rewriteTemplateURL_unfold c opts p st u Hu).
  unfold Get, pinLatestTag. rewrite Href, Hsplit, Htag. cbn [String.eqb].
  destruct (String.eqb_spec tag "") as [|_]; [done|].
  repeat split.
  rewrite Query_Encode by apply Values_wf_Add, Values_wf_Query.
  unfold Add. by rewrite Href.
Qed.

(** With the override the result of [addRefToModuleURL] does not depend
    on the lookup. *)
Lemma addRef_override_ignores_lookup split tag p vars st v :
  vars !! refVar = Some v →
  Sprintf_s c v ≠ "" →
  addRefToModuleURL (withLookup split tag c) opts p vars st
  = addRefToModuleURL c opts p vars st.
Proof.
  intros Hv Hne. destruct (heap st !! p) as [u|] eqn:Hu.
  - rewrite (addRefToModuleURL_unfold _ opts p vars st u Hu),
            (addRefToModuleURL_unfold c opts p vars st u Hu), Hv.
    cbn zeta. rewrite !Get_Set.
    change (Sprintf_s (withLookup split tag c) v) with (Sprintf_s c v).
    by destruct (String.eqb_spec (Sprintf_s c v) "").
  - unfold addRefToModuleURL, bind, load. by rewrite Hu.
Qed.

(** X12: with an override [Ref] that is not empty, module resolution does
    not depend on [terraform.SplitSourceURL] nor on the tag lookup:
    replacing them changes neither the URL text returned, nor the error,
    nor the state. *)
Theorem parseModuleURL_override_ignores_lookup split tag vars moduleURL st v :
  vars !! refVar = Some v →
  Sprintf_s c v ≠ "" →
  parseModuleURL (withLookup split tag c) opts vars moduleURL st
  = parseModuleURL c opts vars moduleURL st.
Proof.
  intros Hv Hne. unfold parseModuleURL, bind.
  change (wrapErr (withLookup split tag c)
            (ToSourceURL (withLookup split tag c) moduleURL (WorkingDir opts)) st)
    with (wrapErr c (ToSourceURL c moduleURL (WorkingDir opts)) st).
  destruct (wrapErr c (ToSourceURL c moduleURL (WorkingDir opts)) st)
    as [[p1|e|] st1]; [|done|done].
  change (String_ (withLookup split tag c) p1 st1) with (String_ c p1 st1).
  destruct (String_ c p1 st1) as [[text|e|] st2]; [|done|done].
  change (wrapErr (withLookup split tag c)
            (rewriteModuleURL (withLookup split tag c) opts vars text) st2)
    with (wrapErr c (rewriteModuleURL c opts vars text) st2).
  destruct (wrapErr c (rewriteModuleURL c opts vars text) st2)
    as [[p2|e|] st3]; [|done|done].
  unfold wrapErr.
  rewrite (addRef_override_ignores_lookup split tag p2 vars st3 v Hv Hne).
  change (errors_New (withLookup split tag c)) with (errors_New c).
  destruct (addRefToModuleURL c opts p2 vars st3) as [[p3|e|] st4];
    [|done|done].
  done.
Qed.

End MoreRefPinning.

Section MoreRefPinningExamples.
Import url scaffold fixtures.

Lemma lookup_pins_found_tag_witness :
  addRefToModuleURL finding options 0 ∅ (stateWith (repoURLWith "depth=1"))
  = (Ok 0, withRawQuery 0 (repoURLWith "depth=1")
             (Encode (Add (Query (repoURLWith "depth=1")) refParam "v1.2.0"))
             (stateWith (repoURLWith "depth=1")))
  ∧ rewriteTemplateURL finding options 0 (stateWith (repoURLWith "depth=1"))
    = (Ok 0, withRawQuery 0 (repoURLWith "depth=1")
               (Encode (Add (Query (repoURLWith "depth=1")) refParam "v1.2.0"))
               (stateWith (repoURLWith "depth=1")))
  ∧ Query (setRawQuery (repoURLWith "depth=1")
             (Encode (Add (Query (repoURLWith "depth=1")) refParam "v1.2.0")))
    = <[refParam := ["v1.2.0"]]> (Query (repoURLWith "depth=1")).
Proof.
  apply (lookup_pins_found_tag finding options 0 ∅
           (stateWith (repoURLWith "depth=1")) (repoURLWith "depth=1")
           (splitSourceURL_root (repoURLWith "depth=1"), "modules/foo")
           "v1.2.0").
  - reflexivity.
  - reflexivity.
  - reflexivity.
  - reflexivity.
  - reflexivity.
  - discriminate.
Defined.

Lemma parseModuleURL_override_ignores_lookup_witness :
  parseModuleURL (withLookup splitSourceURL tagLookupFails finding) options
    {[refVar := VString "v9.9.9"]} repoSource initial
  = parseModuleURL finding options {[refVar := VString "v9.9.9"]}
      repoSource initial.
Proof.
  apply (parseModuleURL_override_ignores_lookup finding options
           splitSourceURL tagLookupFails {[refVar := VString "v9.9.9"]}
           repoSource initial (VString "v9.9.9")).
  - reflexivity.
  - discriminate.
Defined.

(** The query text after pinning: the parameters in the order of their
    keys. *)
Example pinned_query_text :
  (addRefToModuleURL finding options 0 ∅ (stateWith (repoURLWith "depth=1"))).2
  = stateWith (repoURLWith "depth=1&ref=v1.2.0").
Proof. by vm_compute. Qed.

End MoreRefPinningExamples.

(** ** More on [Run] and the filesystem *)

Section Frames.
Import url scaffold.
Context (c : Collaborators).

Lemma keepsFS_ret {A} (a : A) : keepsFS (ret a).
Proof. by intros st. Qed.

Lemma keepsFS_fail {A} e : keepsFS (@fail A e).
Proof. by intros st. Qed.

Lemma keepsFS_panic {A} : keepsFS (@panic A).
Proof. by intros st. Qed.

Lemma keepsFS_lift {A} (r : Res A) : keepsFS (lift r).
Proof. by intros st. Qed.

Lemma keepsFS_logger e : keepsFS (logger e).
Proof. by intros st. Qed.

Lemma keepsFS_alloc u : keepsFS (alloc u).
Proof. by intros st. Qed.

Lemma keepsFS_load p : keepsFS (load p).
Proof. intros st. unfold load. by destruct (heap st !! p). Qed.

Lemma keepsFS_storeRawQuery p q : keepsFS (storeRawQuery p q).
Proof. intros st. unfold storeRawQuery. by destruct (heap st !! p). Qed.

Lemma keepsFS_bind {A B} (m : M A) (k : A → M B) :
  keepsFS m → (∀ a, keepsFS (k a)) → keepsFS (bind m k).
Proof.
  intros Hm Hk st. unfold bind. specialize (Hm st).
  destruct (m st) as [[a|e|] st']; cbn [snd] in *; [|done|done].
  by rewrite Hk.
Qed.

Lemma keepsFS_wrapErr {A} (m : M A) : keepsFS m → keepsFS (wrapErr c m).
Proof.
  intros Hm st. unfold wrapErr. specialize (Hm st).
  by destruct (m st) as [[a|e|] st'].
Qed.

Lemma keepsFS_attempt {A} (m : M A) : keepsFS m → keepsFS (attempt m).
Proof.
  intros Hm st. unfold attempt. specialize (Hm st).
  by destruct (m st) as [[a|e|] st'].
Qed.

Lemma keepsFS_ToSourceURL source workingDir :
  keepsFS (ToSourceURL c source workingDir).
Proof.
  apply keepsFS_bind; [apply keepsFS_lift|]. intros u. apply keepsFS_alloc.
Qed.

Lemma keepsFS_String p : keepsFS (String_ c p).
Proof.
  apply keepsFS_bind; [apply keepsFS_load|]. intros u. apply keepsFS_ret.
Qed.

Lemma keepsFS_parseURL opts moduleURL : keepsFS (parseURL opts moduleURL).
Proof.
  unfold parseURL. destruct (FindStringSubmatch moduleURL).
  - apply keepsFS_ret.
  - apply keepsFS_bind; [apply keepsFS_logger|]. intros _. apply keepsFS_fail.
Qed.

Lemma keepsFS_rewriteModuleURL opts vars moduleURL :
  keepsFS (rewriteModuleURL c opts vars moduleURL).
Proof.
  unfold rewriteModuleURL. cbn zeta.
  apply keepsFS_bind; [apply keepsFS_attempt, keepsFS_parseURL|].
  intros [parsed|e|].
  - apply keepsFS_wrapErr, keepsFS_ToSourceURL.
  - apply keepsFS_bind; [apply keepsFS_logger|]. intros _.
    apply keepsFS_wrapErr, keepsFS_ToSourceURL.
  - apply keepsFS_bind; [apply keepsFS_logger|]. intros _.
    apply keepsFS_wrapErr, keepsFS_ToSourceURL.
Qed.

Lemma keepsFS_lookup (warning : URL → LogEntry) p params u :
  keepsFS (split <- wrapErr c (lift (terraform_SplitSourceURL c u)) ;;
           match shell_GitLastReleaseTag c split.1 with
           | Ok tag =>
               if String.eqb tag "" then logger (warning split.1)
               else storeRawQuery p (Encode (Add params refParam tag))
           | Err _ => logger (warning split.1)
           | Panic => panic
           end).
Proof.
  apply keepsFS_bind; [apply keepsFS_wrapErr, keepsFS_lift|]. intros split.
  destruct (shell_GitLastReleaseTag c split.1) as [tag|e|].
  - destruct (String.eqb tag "");
      [apply keepsFS_logger|apply keepsFS_storeRawQuery].
  - apply keepsFS_logger.
  - apply keepsFS_panic.
Qed.

Lemma keepsFS_addRefToModuleURL opts p vars :
  keepsFS (addRefToModuleURL c opts p vars).
Proof.
  unfold addRefToModuleURL. cbn zeta.
  apply keepsFS_bind; [apply keepsFS_load|]. intros u.
  apply keepsFS_bind.
  { destruct (vars !! refVar); [|apply keepsFS_ret].
    apply keepsFS_bind; [apply keepsFS_storeRawQuery|]. intros _.
    apply keepsFS_ret. }
  intros params. apply keepsFS_bind; [|intros _; apply keepsFS_ret].
  destruct (String.eqb (Get params refParam) ""); [|apply keepsFS_ret].
  apply keepsFS_bind; [apply keepsFS_load|]. intros u'.
  apply (keepsFS_lookup
           (λ root, Warnf "Failed to find last release tag for %s" [AURL root])).
Qed.

Lemma keepsFS_rewriteTemplateURL opts p :
  keepsFS (rewriteTemplateURL c opts p).
Proof.
  unfold rewriteTemplateURL. cbn zeta.
  apply keepsFS_bind; [apply keepsFS_load|]. intros u.
  apply keepsFS_bind; [|intros _; apply keepsFS_ret].
  destruct (String.eqb (Get (Query u) refParam) ""); [|apply keepsFS_ret].
  apply (keepsFS_lookup
           (λ root, Warnf "Failed to find last release tag for URL %s, so will not add a ref param to the URL" [AURL root])).
Qed.

Lemma keepsFS_parseModuleURL opts vars moduleURL :
  keepsFS (parseModuleURL c opts vars moduleURL).
Proof.
  unfold parseModuleURL.
  apply keepsFS_bind; [apply keepsFS_wrapErr, keepsFS_ToSourceURL|].
  intros p1. apply keepsFS_bind; [apply keepsFS_String|].
  intros text.
  apply keepsFS_bind; [apply keepsFS_wrapErr, keepsFS_rewriteModuleURL|].
  intros p2.
  apply keepsFS_bind; [apply keepsFS_wrapErr, keepsFS_addRefToModuleURL|].
  intros p3. apply keepsFS_String.
Qed.

Lemma keepsFS_resolveTemplateURL opts templateURL tempDir :
  keepsFS (resolveTemplateURL c opts templateURL tempDir).
Proof.
  unfold resolveTemplateURL.
  apply keepsFS_bind; [apply keepsFS_wrapErr, keepsFS_ToSourceURL|].
  intros p1.
  apply keepsFS_bind; [apply keepsFS_wrapErr, keepsFS_rewriteTemplateURL|].
  intros p2. apply keepsFS_String.
Qed.

(** X13: resolving a module URL or a template URL never touches the
    filesystem, whatever the collaborators answer and however the
    resolution ends: it only allocates and updates URLs and writes to the
    log. *)
Theorem URL_resolution_keeps_filesystem opts vars moduleURL templateURL
    tempDir st :
  fs (parseModuleURL c opts vars moduleURL st).2 = fs st
  ∧ fs (resolveTemplateURL c opts templateURL tempDir st).2 = fs st.
Proof.
  split; [apply keepsFS_parseModuleURL|apply keepsFS_resolveTemplateURL].
Qed.

End Frames.

Section MoreCleanup.
Import url scaffold.
Context (c : Collaborators) (opts : TerragruntOptions).

(** [Run] up to the point where it has made its directory. *)
Lemma Run_body_started moduleURL templateURL st empty tempDir :
  util_IsDirectoryEmpty c (WorkingDir opts) (fs st) = Ok empty →
  moduleURL ≠ "" →
  os_MkdirTemp_name c "scaffold" (fs st) = Ok tempDir →
  Run_body c opts moduleURL templateURL st
  = ([tempDir],
     Run_scaffold c opts moduleURL templateURL tempDir
       (started opts empty tempDir st)).
Proof.
  intros Hempty Hurl Hname. unfold Run_body. rewrite Hempty.
  destruct (String.eqb_spec moduleURL "") as [|_]; [done|].
  unfold wrapErr, os_MkdirTemp, started.
  destruct empty; cbn [negb snd logger logged fs]; by rewrite Hname.
Qed.

(** Removing a directory that was unused before it was made gives the
    filesystem back. *)
Lemma RemoveAll_withDir tempDir f :
  unused tempDir f →
  filter (λ d, ¬ below tempDir d) (fs_dirs (withDir tempDir f)) = fs_dirs f
  ∧ filter (λ kv : string * string, ¬ below tempDir kv.1)
           (fs_files (withDir tempDir f)) = fs_files f.
Proof.
  intros [Hdirs Hfiles]. split.
  - apply set_eq. intros d. rewrite elem_of_filter. cbn [withDir fs_dirs].
    rewrite elem_of_union, elem_of_singleton. split.
    + intros [Hnot [->|Hd]]; [|done]. destruct Hnot. by left.
    + intros Hd. split; [by apply Hdirs|by right].
  - cbn [withDir fs_files]. apply map_filter_id.
    intros name data Hname. by apply (Hfiles name data).
Qed.

(** X14: without a module URL [Run] fails with [NoModuleURLPassed] before
    it creates anything: the filesystem and the URLs are as before, and a
    working directory that is not empty only costs a warning. When the
    working directory cannot be read, the error of [IsDirectoryEmpty] is
    returned as it is, not wrapped, and nothing is logged. *)
Theorem Run_without_module_URL templateURL st :
  match util_IsDirectoryEmpty c (WorkingDir opts) (fs st) with
  | Ok empty =>
      Run c opts "" templateURL st
      = (Err (errors_New c NoModuleURLPassed),
         if empty then st
         else logged (Warnf "The working directory %s is not empty."
                            [AString (WorkingDir opts)]) st)
  | Err err =>
      ∀ moduleURL, Run c opts moduleURL templateURL st = (Err err, st)
  | Panic => True
  end.
Proof.
  unfold Run, Run_body.
  destruct (util_IsDirectoryEmpty c (WorkingDir opts) (fs st)) as [[]|err|];
    done.
Qed.

(** X15: on every way out of [Run], with a nil error or not, the directory
    made for the module is gone afterwards, with every directory and
    every file below it, provided [os.RemoveAll] does not fail. *)
Theorem Run_removes_module_directory moduleURL templateURL st empty tempDir
    name :
  util_IsDirectoryEmpty c (WorkingDir opts) (fs st) = Ok empty →
  moduleURL ≠ "" →
  os_MkdirTemp_name c "scaffold" (fs st) = Ok tempDir →
  (∀ path fs0, os_RemoveAll_error c path fs0 = None) →
  below tempDir name →
  (name ∉ fs_dirs (fs (Run c opts moduleURL templateURL st).2))
  ∧ fs_files (fs (Run c opts moduleURL templateURL st).2) !! name = None.
Proof.
  intros Hempty Hurl Hname Hrm Hbelow. unfold Run.
  rewrite (Run_body_started _ _ _ _ _ Hempty Hurl Hname).
  destruct (Run_scaffold c opts moduleURL templateURL tempDir
              (started opts empty tempDir st)) as [r st'].
  cbn [snd cleanTempDirs fold_left]. unfold os_RemoveAll. rewrite Hrm.
  cbn [snd fs fs_dirs fs_files]. split.
  - rewrite elem_of_filter. by intros [Hnot _].
  - apply map_lookup_filter_None. right. intros data _ Hnot. by apply Hnot.
Qed.

(** The cleanup after a failure that left the filesystem as [Run] had
    it when it started to work. *)
Lemma cleanTempDirs_started tempDir st st' :
  os_RemoveAll_error c tempDir (withDir tempDir (fs st)) = None →
  unused tempDir (fs st) →
  fs st' = withDir tempDir (fs st) →
  fs (cleanTempDirs c opts [tempDir] st') = fs st.
Proof.
  intros Hrm Hunused Hfs. cbn [cleanTempDirs fold_left]. unfold os_RemoveAll.
  rewrite Hfs, Hrm. cbn [snd fs].
  destruct (RemoveAll_withDir tempDir (fs st) Hunused) as [-> ->].
  by destruct (fs st).
Qed.

(** X16: when the variables the user passed cannot be parsed, [Run] fails
    with the wrapped error of [variables.ParseVars] and leaves no trace:
    the filesystem is exactly as before, if the name of the module
    directory was unused and its removal does not fail. *)
Theorem Run_bad_variables_leaves_no_trace moduleURL templateURL st empty
    tempDir e :
  util_IsDirectoryEmpty c (WorkingDir opts) (fs st) = Ok empty →
  moduleURL ≠ "" →
  os_MkdirTemp_name c "scaffold" (fs st) = Ok tempDir →
  unused tempDir (fs st) →
  os_RemoveAll_error c tempDir (withDir tempDir (fs st)) = None →
  variables_ParseVars c (ScaffoldVars opts) (ScaffoldVarFiles opts)
    (withDir tempDir (fs st)) = Err e →
  (Run c opts moduleURL templateURL st).1 = Err (errors_New c e)
  ∧ fs (Run c opts moduleURL templateURL st).2 = fs st
  ∧ heap (Run c opts moduleURL templateURL st).2 = heap st.
Proof.
  intros Hempty Hurl Hname Hunused Hrm Hvars. unfold Run.
  rewrite (Run_body_started _ _ _ _ _ Hempty Hurl Hname).
  unfold Run_scaffold, bind, wrapErr.
  replace (fs (started opts empty tempDir st))
    with (withDir tempDir (fs st)) by (by destruct empty).
  rewrite Hvars. cbn [fst snd]. split; [done|]. split.
  - apply cleanTempDirs_started; [done|done|by destruct empty].
  - cbn [cleanTempDirs fold_left]. unfold os_RemoveAll.
    replace (fs (started opts empty tempDir st))
      with (withDir tempDir (fs st)) by (by destruct empty).
    rewrite Hrm. by destruct empty.
Qed.

(** X17: when the module URL cannot be resolved, [Run] fails with the
    error of [parseModuleURL], wrapped once more, before anything is
    downloaded, and leaves no trace on the filesystem. *)
Theorem Run_unresolved_module_leaves_no_trace moduleURL templateURL st empty
    tempDir vars e :
  util_IsDirectoryEmpty c (WorkingDir opts) (fs st) = Ok empty →
  moduleURL ≠ "" →
  os_MkdirTemp_name c "scaffold" (fs st) = Ok tempDir →
  unused tempDir (fs st) →
  os_RemoveAll_error c tempDir (withDir tempDir (fs st)) = None →
  variables_ParseVars c (ScaffoldVars opts) (ScaffoldVarFiles opts)
    (withDir tempDir (fs st)) = Ok vars →
  (parseModuleURL c opts vars moduleURL (started opts empty tempDir st)).1
  = Err e →
  (Run c opts moduleURL templateURL st).1 = Err (errors_New c e)
  ∧ fs (Run c opts moduleURL templateURL st).2 = fs st.
Proof.
  intros Hempty Hurl Hname Hunused Hrm Hvars Hres. unfold Run.
  rewrite (Run_body_started _ _ _ _ _ Hempty Hurl Hname).
  unfold Run_scaffold, bind, wrapErr.
  replace (fs (started opts empty tempDir st))
    with (withDir tempDir (fs st)) by (by destruct empty).
  rewrite Hvars.
  pose proof (keepsFS_parseModuleURL c opts vars moduleURL
                (started opts empty tempDir st)) as Hfs.
  destruct (parseModuleURL c opts vars moduleURL
              (started opts empty tempDir st)) as [[text|e'|] st'];
    cbn [fst snd] in *; [done| |done].
  injection Hres as ->. split; [done|].
  apply cleanTempDirs_started; [done|done|].
  rewrite Hfs. by destruct empty.
Qed.

End MoreCleanup.

Section MoreCleanupExamples.
Import url scaffold fixtures.

Lemma initial_unused : unused "/tmp/scaffold1" (fs initial).
Proof.
  split.
  - intros d Hd. cbn in Hd. apply elem_of_singleton in Hd as ->.
    intros [H|H]; [discriminate|]. vm_compute in H. discriminate.
  - intros name data H.
    change ((∅ : gmap string string) !! name = Some data) in H.
    by rewrite lookup_empty in H.
Qed.

Lemma Run_removes_module_directory_witness :
  ("/tmp/scaffold1/main.tf"
     ∉ fs_dirs (fs (Run (downloading finding) options repoSource "" initial).2))
  ∧ fs_files (fs (Run (downloading finding) options repoSource "" initial).2)
      !! "/tmp/scaffold1/main.tf" = None.
Proof.
  apply (Run_removes_module_directory (downloading finding) options
           repoSource "" initial true "/tmp/scaffold1"
           "/tmp/scaffold1/main.tf").
  - reflexivity.
  - discriminate.
  - reflexivity.
  - reflexivity.
  - right. reflexivity.
Defined.

(** The downloaded file is there while [Run] works. *)
Example Run_downloads_into_module_directory :
  fs_files (fs (Run_body (downloading finding) options repoSource ""
                  initial).2.2) !! "/tmp/scaffold1/main.tf"
  = Some "# module".
Proof. by vm_compute. Qed.

Lemma Run_bad_variables_leaves_no_trace_witness :
  (Run (rejectingVars finding) options repoSource "" initial).1
  = Err (errors_New (rejectingVars finding) (errorString "invalid variable"))
  ∧ fs (Run (rejectingVars finding) options repoSource "" initial).2
    = fs initial
  ∧ heap (Run (rejectingVars finding) options repoSource "" initial).2
    = heap initial.
Proof.
  apply (Run_bad_variables_leaves_no_trace (rejectingVars finding) options
           repoSource "" initial true "/tmp/scaffold1"
           (errorString "invalid variable")).
  - reflexivity.
  - discriminate.
  - reflexivity.
  - apply initial_unused.
  - reflexivity.
  - reflexivity.
Defined.

Lemma Run_unresolved_module_leaves_no_trace_witness :
  (Run finding options "nowhere" "" initial).1
  = Err (errors_New finding (Wrapped (errorString "unknown source")))
  ∧ fs (Run finding options "nowhere" "" initial).2 = fs initial.
Proof.
  apply (Run_unresolved_module_leaves_no_trace finding options
           "nowhere" "" initial true "/tmp/scaffold1" ∅
           (Wrapped (errorString "unknown source"))).
  - reflexivity.
  - discriminate.
  - reflexivity.
  - apply initial_unused.
  - reflexivity.
  - reflexivity.
  - reflexivity.
Defined.

End MoreCleanupExamples.

(** ** The boilerplate directory *)

Section Boilerplate.
Import url scaffold.
Context (c : Collaborators) (opts : TerragruntOptions).

(** The second half of [prepareBoilerplateFiles]: the directory it
    settles on exists when it returns. *)
Lemma default_template_exists boilerplateDir st dir st' :
  (exists_ <- files_IsExistingDir boilerplateDir ;;
   if negb exists_ then
     defaultTempDir <- wrapErr c (os_MkdirTemp c "boilerplate") ;;
     let boilerplateDir := defaultTempDir in
     wrapErr c (os_WriteFile c (util_JoinPath c boilerplateDir "terragrunt.hcl")
                             DefaultTerragruntTemplate) ;;
     wrapErr c (os_WriteFile c (util_JoinPath c boilerplateDir "boilerplate.yml")
                             DefaultBoilerplateConfig) ;;
     ret boilerplateDir
   else ret boilerplateDir) st = (Ok dir, st') →
  dir ∈ fs_dirs (fs st').
Proof.
  unfold bind at 1. unfold files_IsExistingDir.
  destruct (decide (boilerplateDir ∈ fs_dirs (fs st))) as [Hin|Hout].
  { rewrite bool_decide_eq_true_2 by done. cbn [negb].
    unfold ret. by intros [= <- <-]. }
  rewrite bool_decide_eq_false_2 by done. cbn [negb].
  unfold bind, wrapErr, os_MkdirTemp, os_WriteFile, ret.
  destruct (os_MkdirTemp_name c "boilerplate" (fs st)) as [d|e|];
    [|done|done].
  cbn [fs fs_dirs fs_files].
  match goal with
  | |- context [os_WriteFile_error c ?n ?f] =>
      destruct (os_WriteFile_error c n f); [done|]
  end.
  cbn [fs fs_dirs fs_files].
  match goal with
  | |- context [os_WriteFile_error c ?n ?f] =>
      destruct (os_WriteFile_error c n f); [done|]
  end.
  intros [= <- <-]. cbn [fs fs_dirs]. set_solver.
Qed.

(** X18: whenever [prepareBoilerplateFiles] returns a directory with a nil
    error, that directory exists: with or without a template URL,
    whatever was downloaded, it is the template directory, the module's
    own boilerplate directory, or the default one it has just made. *)
Theorem prepareBoilerplateFiles_returns_existing_dir templateURL tempDir st
    dir st' :
  prepareBoilerplateFiles c opts templateURL tempDir st = (Ok dir, st') →
  dir ∈ fs_dirs (fs st').
Proof.
  unfold prepareBoilerplateFiles. cbn zeta. unfold bind at 1.
  match goal with
  | |- context [match ?m st with _ => _ end] =>
      destruct (m st) as [[templateDir|e|] st1]; [|done|done]
  end.
  apply default_template_exists.
Qed.

(** Without a template URL, the boilerplate directory of the downloaded
    module is used when it exists: it is returned and nothing is created,
    written or logged. *)
Lemma prepareBoilerplateFiles_prefers_module_boilerplate tempDir st :
  util_JoinPath c tempDir (util_DefaultBoilerplateDir c) ∈ fs_dirs (fs st) →
  prepareBoilerplateFiles c opts "" tempDir st
  = (Ok (util_JoinPath c tempDir (util_DefaultBoilerplateDir c)), st).
Proof.
  intros Hin. unfold prepareBoilerplateFiles, bind, ret, files_IsExistingDir.
  cbn [String.eqb negb]. by rewrite bool_decide_eq_true_2.
Qed.

(** X19: without a template URL and without a boilerplate directory in
    the module, the default template is materialised: a new directory is
    made and returned, [boilerplate.yml] in it holds
    [DefaultBoilerplateConfig] and [terragrunt.hcl] holds
    [DefaultTerragruntTemplate], and no other file, no URL and no log
    entry changes. *)
Theorem prepareBoilerplateFiles_writes_default_template tempDir st d :
  util_JoinPath c tempDir (util_DefaultBoilerplateDir c) ∉ fs_dirs (fs st) →
  os_MkdirTemp_name c "boilerplate" (fs st) = Ok d →
  (∀ name fs0, os_WriteFile_error c name fs0 = None) →
  util_JoinPath c d "terragrunt.hcl" ≠ util_JoinPath c d "boilerplate.yml" →
  ∃ st',
    prepareBoilerplateFiles c opts "" tempDir st = (Ok d, st')
    ∧ heap st' = heap st ∧ log st' = log st
    ∧ fs_dirs (fs st') = {[d]} ∪ fs_dirs (fs st)
    ∧ fs_files (fs st') !! util_JoinPath c d "terragrunt.hcl"
      = Some DefaultTerragruntTemplate
    ∧ fs_files (fs st') !! util_JoinPath c d "boilerplate.yml"
      = Some DefaultBoilerplateConfig
    ∧ ∀ name,
        name ≠ util_JoinPath c d "terragrunt.hcl" →
        name ≠ util_JoinPath c d "boilerplate.yml" →
        fs_files (fs st') !! name = fs_files (fs st) !! name.
Proof.
  intros Hout Hname Hwrite Hdistinct.
  unfold prepareBoilerplateFiles, bind, ret, files_IsExistingDir.
  cbn [String.eqb negb]. rewrite bool_decide_eq_false_2 by done.
  cbn [negb]. unfold wrapErr, os_MkdirTemp, os_WriteFile.
  rewrite Hname, !Hwrite. eexists. split; [reflexivity|].
  cbn [heap log fs fs_dirs fs_files]. repeat split.
  - rewrite lookup_insert_ne by done. by rewrite lookup_insert_eq.
  - by rewrite lookup_insert_eq.
  - intros name H1 H2. by rewrite !lookup_insert_ne.
Qed.

End Boilerplate.

Section BoilerplateExamples.
Import url scaffold fixtures.

Lemma prepareBoilerplateFiles_returns_existing_dir_witness :
  "/tmp/template1"
  ∈ fs_dirs (fs (prepareBoilerplateFiles finding options repoSource
                   "/tmp/scaffold1" initial).2).
Proof.
  apply (prepareBoilerplateFiles_returns_existing_dir finding options
           repoSource "/tmp/scaffold1" initial "/tmp/template1"
           (prepareBoilerplateFiles finding options repoSource
              "/tmp/scaffold1" initial).2).
  vm_compute. reflexivity.
Defined.

Example module_boilerplate_is_used :
  prepareBoilerplateFiles finding options "" "/tmp/scaffold1"
    withModuleBoilerplate
  = (Ok "/tmp/scaffold1/.boilerplate", withModuleBoilerplate).
Proof.
  apply (prepareBoilerplateFiles_prefers_module_boilerplate finding options
           "/tmp/scaffold1" withModuleBoilerplate).
  vm_compute. set_solver.
Qed.

Lemma prepareBoilerplateFiles_writes_default_template_witness :
  ∃ st',
    prepareBoilerplateFiles finding options "" "/tmp/scaffold1" initial
    = (Ok "/tmp/boilerplate1", st')
    ∧ heap st' = heap initial ∧ log st' = log initial
    ∧ fs_dirs (fs st') = {["/tmp/boilerplate1"]} ∪ fs_dirs (fs initial)
    ∧ fs_files (fs st') !! "/tmp/boilerplate1/terragrunt.hcl"
      = Some DefaultTerragruntTemplate
    ∧ fs_files (fs st') !! "/tmp/boilerplate1/boilerplate.yml"
      = Some DefaultBoilerplateConfig
    ∧ ∀ name,
        name ≠ "/tmp/boilerplate1/terragrunt.hcl" →
        name ≠ "/tmp/boilerplate1/boilerplate.yml" →
        fs_files (fs st') !! name = fs_files (fs initial) !! name.
Proof.
  apply (prepareBoilerplateFiles_writes_default_template finding options
           "/tmp/scaffold1" initial "/tmp/boilerplate1").
  - cbn. intros H%elem_of_singleton. discriminate.
  - reflexivity.
  - reflexivity.
  - discriminate.
Defined.

End BoilerplateExamples.

(** ** More on the classification of variables *)

Section MoreClassification.
Import scaffold.

Lemma filter_isRequired_stable (l : list ParsedVariable) :
  filter isRequired (filter isRequired l) = filter isRequired l
  ∧ filter (λ value, ¬ isRequired value) (filter isRequired l) = []
  ∧ filter isRequired (filter (λ value, ¬ isRequired value) l) = []
  ∧ filter (λ value, ¬ isRequired value)
           (filter (λ value, ¬ isRequired value) l)
    = filter (λ value, ¬ isRequired value) l.
Proof.
  induction l as [|value l (IH1 & IH2 & IH3 & IH4)]; [done|].
  rewrite !filter_cons.
  destruct (decide (isRequired value)) as [Hreq|Hopt].
  - rewrite decide_False by auto. rewrite !filter_cons.
    rewrite decide_True, decide_False by auto. by rewrite IH1.
  - rewrite decide_True by auto. rewrite !filter_cons.
    rewrite decide_False, decide_True by auto. by rewrite IH4.
Qed.

(** X20: classification composes: the declarations of two files
    classified together are the two classifications appended list by
    list, and it is stable: classifying the required list again gives it
    back with no optional variable, and likewise for the optional list. *)
Theorem classify_composes inputs more :
  classify (inputs ++ more)
  = ((classify inputs).1 ++ (classify more).1,
     (classify inputs).2 ++ (classify more).2)
  ∧ classify (classify inputs).1 = ((classify inputs).1, [])
  ∧ classify (classify inputs).2 = ([], (classify inputs).2).
Proof.
  rewrite !classify_filter. cbn [fst snd]. rewrite !filter_app.
  destruct (filter_isRequired_stable inputs) as (-> & -> & -> & ->).
  done.
Qed.

End MoreClassification.

(** ** The suffix option *)

Section SuffixOptions.
Import format_options.
Context {Data : Type}.

Lemma append_nil_r (s : string) : s +:+ "" = s.
Proof. induction s as [|a s IH]; [done|]. by rewrite append_cons, IH. Qed.

Lemma prefix_append (s t : string) : String.prefix s (s +:+ t) = true.
Proof.
  induction s as [|a s IH]; [by destruct t|].
  rewrite append_cons. cbn [String.prefix].
  by destruct (Ascii.ascii_dec a a).
Qed.

(** X21: suffix options compose like the texts they hold: evaluating two
    of them in turn is evaluating the suffix of the concatenation, the
    empty suffix changes nothing, the text passed in is kept as the
    beginning of the result, and no evaluation returns an error. A value
    set with [ParseValue] replaces the one the option was built with: it
    is what the next evaluation appends. *)
Theorem Suffix_options_compose (first second : string) (data : Data)
    (str : string) :
  Evaluate (Suffix second) data (Evaluate (Suffix first) data str).1
  = Evaluate (Suffix (first +:+ second)) data str
  ∧ Evaluate (Suffix "") data str = (str, None)
  ∧ String.prefix str (Evaluate (Suffix first) data str).1 = true
  ∧ (Evaluate (Suffix first) data str).2 = None
  ∧ ParseValue (Suffix first) second = (Suffix second, None)
  ∧ Evaluate (ParseValue (Suffix first) second).1 data str
    = (str +:+ second, None).
Proof.
  unfold Evaluate, ParseValue, Suffix, NewCommonOption.
  cbn [CommonOption_ name value values fst snd].
  repeat split.
  - by rewrite append_assoc.
  - by rewrite append_nil_r.
  - apply prefix_append.
Qed.

End SuffixOptions.
